(** * MatLogic graph editor: the view-model synchronisation layer of
    [frontend/src/App.tsx], embedded in Rocq.

    Conventions of the embedding.
    - Entity ids are JavaScript numbers that hold integers; canvas
      coordinates are taken on the integer grid.  Both are [Z].  A value of
      type [number | null] is an [option Z], and its JavaScript truthiness
      is [truthy]: [null] and [0] are falsy.
    - Strings are sequences of ASCII characters ([string]).
    - [Array.filter], [Array.map], [Array.slice(0, k)] are [filter], [fmap]
      and [take] on lists; a [Set<number>] is a [gset Z]; [localStorage] and
      a [PosMap] object are finite maps keyed by strings.
    - A promise that has settled is a [Settled] value; [await] on a
      rejected promise throws, and a block that may throw is a
      [Completion]; [try]/[catch] is [try_catch_with].
    - The React state of [App], together with the browser store it reads
      and writes, is the record [AppState]; every [setX] of the component
      is the field update of the same name.  Replies of the backend are
      arguments of the handlers, typed as the component types them.
    - Built-ins and library calls whose code is not part of the component
      ([JSON], [Math.random], [Date.now], [addEdge]) are the fields of the
      class [Platform]; [JSON.parse] on texts that do not encode a position
      map is the field of the class [RawJSON]. *)

From stdpp Require Import base gmap strings list pretty.
From Stdlib Require Import Ascii ZArith Lia QArith.

#[local] Close Scope Q_scope.
#[local] Open Scope string_scope.
#[local] Open Scope Z_scope.

(** ** Backend entities *)

Record User := { user_id : Z; user_name : string; email : string }.

Record Graph := { graph_ident : Z; title : string; owner_id : Z }.

Record NodeT := { node_id : Z; name : string; graph_id : Z }.

Inductive EdgeTypeT := positive | neutral | negative.

Record EdgeT := {
  edge_id : Z;
  from_node_id : Z;
  to_node_id : Z;
  edge_type : EdgeTypeT;
  label : option string
}.

#[global] Instance User_eq_dec : EqDecision User.
Proof. solve_decision. Defined.
#[global] Instance Graph_eq_dec : EqDecision Graph.
Proof. solve_decision. Defined.
#[global] Instance NodeT_eq_dec : EqDecision NodeT.
Proof. solve_decision. Defined.
#[global] Instance EdgeTypeT_eq_dec : EqDecision EdgeTypeT.
Proof. solve_decision. Defined.
#[global] Instance EdgeT_eq_dec : EqDecision EdgeT.
Proof. solve_decision. Defined.

(** ** Edge cycling *)

Definition edgeStroke (type : EdgeTypeT) : string :=
  match type with
  | positive => "#16a34a"
  | neutral => "#1f307cff"
  | negative => "#dc2626"
  end.

Definition nextEdgeType (type : EdgeTypeT) : EdgeTypeT :=
  match type with
  | positive => neutral
  | neutral => negative
  | negative => positive
  end.

(** [edges.find((e) => e.id === id)?.edge_type ?? "positive"] *)
Definition currentType (id : Z) (edges : list EdgeT) : EdgeTypeT :=
  match find (λ e, edge_id e =? id) edges with
  | Some current => edge_type current
  | None => positive
  end.

(** [{ ...e, edge_type: nextType }] *)
Definition with_edge_type (nextType : EdgeTypeT) (e : EdgeT) : EdgeT :=
  {| edge_id := edge_id e; from_node_id := from_node_id e;
     to_node_id := to_node_id e; edge_type := nextType; label := label e |}.

(** What a double click on the edge with numeric id [id] does to the
    [edges] collection in [onEdgeDoubleClick]; the update stays whether or
    not the backend accepts it. *)
Definition onEdgeDoubleClick_edges (id : Z) (edges : list EdgeT) : list EdgeT :=
  let nextType := nextEdgeType (currentType id edges) in
  (λ e, if edge_id e =? id then with_edge_type nextType e else e) <$> edges.

(** ** Settled promises and JavaScript truthiness *)

Inductive Settled (A : Type) : Type :=
| Fulfilled (value : A)
| Rejected.
Arguments Fulfilled {A} value.
Arguments Rejected {A}.

Definition is_rejected {A} (p : Settled A) : bool :=
  match p with Fulfilled _ => false | Rejected => true end.

(** [Promise.all] over a list of settled promises: the list of values when
    every promise fulfilled, a rejection as soon as one rejected. *)
Fixpoint Promise_all {A} (ps : list (Settled A)) : Settled (list A) :=
  match ps with
  | [] => Fulfilled []
  | Fulfilled v :: ps' =>
      match Promise_all ps' with
      | Fulfilled vs => Fulfilled (v :: vs)
      | Rejected => Rejected
      end
  | Rejected :: _ => Rejected
  end.

(** The completion of a block of statements: it ends normally with a value
    or abruptly by a [throw]. *)
Inductive Completion (A : Type) : Type :=
| Normal (value : A)
| Throw.
Arguments Normal {A} value.
Arguments Throw {A}.

(** [await p]: the value of a fulfilled promise, a throw for a rejected one. *)
Definition await {A} (p : Settled A) : Completion A :=
  match p with
  | Fulfilled v => Normal v
  | Rejected => Throw
  end.

(** [!x] is false exactly for a non-null, non-zero number. *)
Definition truthy (x : option Z) : bool :=
  match x with
  | Some n => negb (n =? 0)
  | None => false
  end.

(** Truthiness of a [string | null]: the empty string is falsy. *)
Definition truthy_str (x : option string) : bool :=
  match x with
  | Some s => negb (bool_decide (s = ""))
  | None => false
  end.

(** [String(n)] for an integer [n]. *)
Definition String_of (n : Z) : string := pretty n.

(** ** Canvas records of the rendering library *)

Record XY := { x : Z; y : Z }.

Record RFNodeData := {
  data_label : string;
  dimmed : bool;
  highlighted : bool
}.

Record RFNode := {
  rf_id : string;
  rf_type : string;
  data : RFNodeData;
  position : XY
}.

Record EdgeStyle := {
  stroke : string;
  strokeWidth : Q;
  opacity : option Q
}.

Record RFEdge := {
  rfe_id : string;
  source : string;
  target : string;
  rfe_type : string;
  rfe_label : string;
  style : EdgeStyle
}.

(** ** Position persistence in [localStorage] *)

Abbreviation Storage := (gmap string string).
Abbreviation PosMap := (gmap string XY).

Definition posKey (graphId : Z) : string :=
  "matlogic:positions:" +:+ String_of graphId.

(** [localStorage.getItem] and [localStorage.setItem].  The store is a
    finite map that accepts every write; quota and access errors of a
    browser are outside the model, so these two calls end normally. *)
Definition localStorage_getItem (key : string) (ls : Storage)
  : Completion (option string) :=
  Normal (ls !! key).

Definition localStorage_setItem (key value : string) (ls : Storage)
  : Completion Storage :=
  Normal (<[key := value]> ls).

(** ** Strings: [trim], [toLowerCase], [includes] on ASCII text *)

Definition is_space (c : ascii) : bool :=
  let n := nat_of_ascii c in
  ((9 <=? n) && (n <=? 13) || (n =? 32))%nat.

Definition lower_ascii (c : ascii) : ascii :=
  let n := nat_of_ascii c in
  if ((65 <=? n) && (n <=? 90))%nat then ascii_of_nat (n + 32) else c.

Fixpoint toLowerCase (s : string) : string :=
  match s with
  | EmptyString => EmptyString
  | String c s' => String (lower_ascii c) (toLowerCase s')
  end.

Fixpoint trimStart (s : string) : string :=
  match s with
  | EmptyString => EmptyString
  | String c s' => if is_space c then trimStart s' else s
  end.

Fixpoint trimEnd (s : string) : string :=
  match s with
  | EmptyString => EmptyString
  | String c s' =>
      match trimEnd s' with
      | EmptyString => if is_space c then EmptyString else String c EmptyString
      | t => String c t
      end
  end.

Definition trim (s : string) : string := trimEnd (trimStart s).

(** [s.includes(q)]: [q] occurs in [s] as a contiguous substring. *)
Fixpoint includes (s q : string) : bool :=
  if String.prefix q s then true
  else match s with
       | EmptyString => false
       | String _ s' => includes s' q
       end.

(** [!q] for a string: only the empty string is falsy. *)
Definition is_empty_str (q : string) : bool := bool_decide (q = "").

#[global] Instance Completion_ret : MRet Completion := λ A v, Normal v.
#[global] Instance Completion_bind : MBind Completion := λ A B k c,
  match c with
  | Normal v => k v
  | Throw => Throw
  end.

(** [try { body } catch { handler }]: the handler runs when the body threw. *)
Definition try_catch_with {A} (body handler : Completion A) : Completion A :=
  match body with
  | Normal v => Normal v
  | Throw => handler
  end.

(** ** HTTP responses *)

Record Response (J : Type) := {
  status : Z;
  res_text : Settled string;
  res_json : Settled J
}.
Arguments status {J} _.
Arguments res_text {J} _.
Arguments res_json {J} _.

(** [res.ok]: the status is in the range 200-299. *)
Definition ok {J} (res : Response J) : bool :=
  (200 <=? status res) && (status res <=? 299).

(** ** Connections handed over by the canvas *)

Record Connection := {
  conn_source : option string;
  conn_target : option string;
  sourceHandle : option string;
  targetHandle : option string
}.

(** The object [{ ...connection, type, style }] that [onConnect] gives to
    [addEdge]. *)
Record EdgeParams := {
  ep_connection : Connection;
  ep_type : string;
  ep_stroke : string;
  ep_strokeWidth : Q
}.

(** ** The platform: built-ins and library calls the component relies on *)

Class Platform := {
  (** [JSON.stringify] and [JSON.parse] at type [PosMap], the type the
      source declares for the value of [loadPositions]: [JSON_parse] is
      the parse of a text that encodes a position map, [Throw] is a
      [SyntaxError].  What [JSON.parse] gives for any text, and
      [loadPositions] without the annotation, are [JSON_parse_any] and
      [loadPositions_unchecked] below. *)
  JSON_stringify : PosMap → string;
  JSON_parse : string → Completion PosMap;
  (** [Math.random() * bound] at the [k]-th draw of a rebuild, on the
      integer grid like every coordinate. *)
  Math_random_times : Z → nat → Z;
  (** [Date.now()]. *)
  Date_now : Z;
  (** [addEdge] of the rendering library. *)
  addEdge : EdgeParams → list RFEdge → list RFEdge
}.

(** retrieves saved node positions from localStorage for a graph *)
Definition loadPositions `{Platform} (ls : Storage) (graphId : Z)
  : Completion PosMap :=
  try_catch_with
    (raw ← localStorage_getItem (posKey graphId) ls;
     if negb (truthy_str raw) then Normal ∅
     else JSON_parse (default "" raw))
    (Normal ∅).

(** saves node positions to localStorage for a graph *)
Definition savePositions `{Platform} (graphId : Z) (map : PosMap) (ls : Storage)
  : Storage :=
  match localStorage_setItem (posKey graphId) (JSON_stringify map) ls with
  | Normal ls' => ls'
  | Throw => ls
  end.

(** ** [JSON.parse] without the type annotation

    The annotation [: PosMap] on [loadPositions] is erased when the program
    runs: the function returns whatever [JSON.parse] gives for the stored
    text. *)

(** A JSON value; numbers are on the integer grid like every coordinate. *)
#[warnings="-register-all"]
Inductive JSONValue :=
| JNull
| JBool (b : bool)
| JNumber (n : Z)
| JString (s : string)
| JArray (items : list JSONValue)
| JObject (fields : list (string * JSONValue)).

Class RawJSON := {
  (** [JSON.parse] on any text: a JSON value, or [Throw] for a
      [SyntaxError]. *)
  JSON_parse_any : string → Completion JSONValue
}.

(** [loadPositions] as it runs; [{}] is [JObject []]. *)
Definition loadPositions_unchecked `{RawJSON} (ls : Storage) (graphId : Z)
  : Completion JSONValue :=
  try_catch_with
    (raw ← localStorage_getItem (posKey graphId) ls;
     if negb (truthy_str raw) then Normal (JObject [])
     else JSON_parse_any (default "" raw))
    (Normal (JObject [])).

(** [obj[name]] for an object given by its fields: the last entry of a
    repeated key wins. *)
Definition json_field (name : string) (fields : list (string * JSONValue))
  : option JSONValue :=
  snd <$> last (filter (λ f, f.1 = name) fields).

(** The value [v] read as [{ x: number; y: number }]. *)
Definition as_XY (v : JSONValue) : option XY :=
  match v with
  | JObject fields =>
      match json_field "x" fields, json_field "y" fields with
      | Some (JNumber a), Some (JNumber b) => Some {| x := a; y := b |}
      | _, _ => None
      end
  | _ => None
  end.

(** The value [v] read as a [PosMap]: an object all of whose fields are
    [{ x, y }] pairs; [None] when [v] is not of that shape. *)
Definition as_PosMap (v : JSONValue) : option PosMap :=
  match v with
  | JObject fields =>
      foldl (λ acc f,
               match acc, as_XY f.2 with
               | Some map, Some xy => Some (<[f.1 := xy]> map)
               | _, _ => None
               end)
            (Some ∅) fields
  | _ => None
  end.

Definition is_position_map (v : JSONValue) : bool :=
  match as_PosMap v with
  | Some _ => true
  | None => false
  end.

(** ** Technique drafts *)

(** The JSON body of [GET /nodes/:id/technique]; a field that is [null] or
    absent is [None]. *)
Record TechniqueData := {
  video_url : option string;
  steps_field : option string
}.

Record TechniqueDraft := {
  videoUrl : string;
  steps : string;
  updatedAt : Z
}.

(** [v || ""] for a [string | null | undefined]. *)
Definition or_empty (v : option string) : string := default "" v.

(** loads technique data from backend; [GET nodeId] is the settled
    [fetch] of the node's technique resource. *)
Definition loadTechniqueDraft `{Platform}
    (GET : Z → Settled (Response TechniqueData)) (nodeId : Z)
  : Completion TechniqueDraft :=
  try_catch_with
    (res ← await (GET nodeId);
     if negb (ok res) then
       Normal {| videoUrl := ""; steps := ""; updatedAt := Date_now |}
     else
       data ← await (res_json res);
       Normal {| videoUrl := or_empty (video_url data);
                 steps := or_empty (steps_field data);
                 updatedAt := Date_now |})
    (Normal {| videoUrl := ""; steps := ""; updatedAt := Date_now |}).

(** ** The state of the [App] component *)

Record AppState := {
  users : list User;
  graphs : list Graph;
  nodes : list NodeT;
  edges : list EdgeT;
  selectedUserId : option Z;
  selectedGraphId : option Z;
  error : option string;
  authToken : option string;
  rfNodes : list RFNode;
  rfEdges : list RFEdge;
  searchQuery : string;
  localStorage : Storage
}.

Definition setUsers (v : list User) (st : AppState) : AppState :=
  {| users := v; graphs := graphs st; nodes := nodes st; edges := edges st;
     selectedUserId := selectedUserId st; selectedGraphId := selectedGraphId st;
     error := error st; authToken := authToken st; rfNodes := rfNodes st;
     rfEdges := rfEdges st; searchQuery := searchQuery st;
     localStorage := localStorage st |}.

Definition setGraphs (v : list Graph) (st : AppState) : AppState :=
  {| users := users st; graphs := v; nodes := nodes st; edges := edges st;
     selectedUserId := selectedUserId st; selectedGraphId := selectedGraphId st;
     error := error st; authToken := authToken st; rfNodes := rfNodes st;
     rfEdges := rfEdges st; searchQuery := searchQuery st;
     localStorage := localStorage st |}.

Definition setNodes (v : list NodeT) (st : AppState) : AppState :=
  {| users := users st; graphs := graphs st; nodes := v; edges := edges st;
     selectedUserId := selectedUserId st; selectedGraphId := selectedGraphId st;
     error := error st; authToken := authToken st; rfNodes := rfNodes st;
     rfEdges := rfEdges st; searchQuery := searchQuery st;
     localStorage := localStorage st |}.

Definition setEdges (v : list EdgeT) (st : AppState) : AppState :=
  {| users := users st; graphs := graphs st; nodes := nodes st; edges := v;
     selectedUserId := selectedUserId st; selectedGraphId := selectedGraphId st;
     error := error st; authToken := authToken st; rfNodes := rfNodes st;
     rfEdges := rfEdges st; searchQuery := searchQuery st;
     localStorage := localStorage st |}.

Definition setSelectedUserId (v : option Z) (st : AppState) : AppState :=
  {| users := users st; graphs := graphs st; nodes := nodes st; edges := edges st;
     selectedUserId := v; selectedGraphId := selectedGraphId st;
     error := error st; authToken := authToken st; rfNodes := rfNodes st;
     rfEdges := rfEdges st; searchQuery := searchQuery st;
     localStorage := localStorage st |}.

Definition setSelectedGraphId (v : option Z) (st : AppState) : AppState :=
  {| users := users st; graphs := graphs st; nodes := nodes st; edges := edges st;
     selectedUserId := selectedUserId st; selectedGraphId := v;
     error := error st; authToken := authToken st; rfNodes := rfNodes st;
     rfEdges := rfEdges st; searchQuery := searchQuery st;
     localStorage := localStorage st |}.

Definition setError (v : option string) (st : AppState) : AppState :=
  {| users := users st; graphs := graphs st; nodes := nodes st; edges := edges st;
     selectedUserId := selectedUserId st; selectedGraphId := selectedGraphId st;
     error := v; authToken := authToken st; rfNodes := rfNodes st;
     rfEdges := rfEdges st; searchQuery := searchQuery st;
     localStorage := localStorage st |}.

Definition setRfNodes (v : list RFNode) (st : AppState) : AppState :=
  {| users := users st; graphs := graphs st; nodes := nodes st; edges := edges st;
     selectedUserId := selectedUserId st; selectedGraphId := selectedGraphId st;
     error := error st; authToken := authToken st; rfNodes := v;
     rfEdges := rfEdges st; searchQuery := searchQuery st;
     localStorage := localStorage st |}.

Definition setRfEdges (v : list RFEdge) (st : AppState) : AppState :=
  {| users := users st; graphs := graphs st; nodes := nodes st; edges := edges st;
     selectedUserId := selectedUserId st; selectedGraphId := selectedGraphId st;
     error := error st; authToken := authToken st; rfNodes := rfNodes st;
     rfEdges := v; searchQuery := searchQuery st;
     localStorage := localStorage st |}.

(** A write to the browser store, seen from the component. *)
Definition setLocalStorage (v : Storage) (st : AppState) : AppState :=
  {| users := users st; graphs := graphs st; nodes := nodes st; edges := edges st;
     selectedUserId := selectedUserId st; selectedGraphId := selectedGraphId st;
     error := error st; authToken := authToken st; rfNodes := rfNodes st;
     rfEdges := rfEdges st; searchQuery := searchQuery st;
     localStorage := v |}.

(** ** Bulk load *)

(** The four requests of [loadAll], each the settled promise
    [apiFetch(path).then(r => r.json())]. *)
Record LoadReplies := {
  users_reply : Settled (list User);
  graphs_reply : Settled (list Graph);
  nodes_reply : Settled (list NodeT);
  edges_reply : Settled (list EdgeT)
}.

(** [x == null] *)
Definition is_null {A} (x : option A) : bool :=
  match x with Some _ => false | None => true end.

(** fetches all data from backend and sets defaults *)
Definition loadAll (replies : LoadReplies) (st : AppState) : AppState :=
  let st0 := setError None st in
  if negb (truthy_str (authToken st)) then st0
  else
    match users_reply replies, graphs_reply replies,
          nodes_reply replies, edges_reply replies with
    | Fulfilled u, Fulfilled g, Fulfilled n, Fulfilled e =>
        let st1 := setEdges e (setNodes n (setGraphs g (setUsers u st0))) in
        let st2 :=
          match u with
          | u0 :: _ =>
              if is_null (selectedUserId st)
              then setSelectedUserId (Some (user_id u0)) st1 else st1
          | [] => st1
          end in
        match g with
        | g0 :: _ =>
            if is_null (selectedGraphId st)
            then setSelectedGraphId (Some (graph_ident g0)) st2 else st2
        | [] => st2
        end
    | _, _, _, _ => setError (Some "Failed to load data from backend") st0
    end.

(** ** Deleting nodes *)

(** [ids.includes(v)] *)
Definition Array_includes (ids : list Z) (v : Z) : bool := bool_decide (v ∈ ids).

(** deletes nodes and their connected edges both in backend and local
    state; [DELETE id] is the settled [fetch] of the delete request for
    [id].  The result pairs the completion of the call with the state it
    leaves. *)
Definition deleteNodesById (DELETE : Z → Settled (Response unit))
    (ids : list Z) (st : AppState) : Completion unit * AppState :=
  if (length ids =? 0)%nat then (Normal (), st)
  else
    match await (Promise_all (DELETE <$> ids)) with
    | Throw => (Throw, st)
    | Normal _ =>
        let st1 :=
          setEdges
            (filter (λ e, (negb (Array_includes ids (from_node_id e))
                           && negb (Array_includes ids (to_node_id e))) = true)
                    (edges st)) st in
        (Normal (),
         setNodes (filter (λ n, negb (Array_includes ids (node_id n)) = true)
                          (nodes st1)) st1)
    end.

(** ** Values derived from the state on every render *)

(** filters backend nodes to only those in selected graph *)
Definition graphNodes (st : AppState) : list NodeT :=
  if negb (truthy (selectedGraphId st)) then []
  else filter (λ n, Some (graph_id n) = selectedGraphId st) (nodes st).

(** filters backend edges to only those connecting nodes in selected graph *)
Definition graphEdges (st : AppState) : list EdgeT :=
  if negb (truthy (selectedGraphId st)) then []
  else
    let nodeIds : gset Z := list_to_set (node_id <$> graphNodes st) in
    filter (λ e, (bool_decide (from_node_id e ∈ nodeIds)
                  && bool_decide (to_node_id e ∈ nodeIds)) = true)
           (edges st).

(** The test of both search memos: the lower-cased name includes [q]. *)
Definition name_matches (q : string) (n : NodeT) : bool :=
  includes (toLowerCase (name n)) q.

Definition searchResults (st : AppState) : list NodeT :=
  let q := toLowerCase (trim (searchQuery st)) in
  if is_empty_str q then []
  else take 12 (filter (λ n, name_matches q n = true) (graphNodes st)).

Definition matchingNodeIds (st : AppState) : gset Z :=
  let q := toLowerCase (trim (searchQuery st)) in
  if is_empty_str q then ∅
  else list_to_set
         (node_id <$> filter (λ n, name_matches q n = true) (graphNodes st)).

(** ** The effect that rebuilds the canvas *)

Definition nextRfNode `{Platform} (pos : PosMap) (matching : gset Z)
    (i : nat) (n : NodeT) : RFNode :=
  let saved := pos !! String_of (node_id n) in
  let isMatch :=
    if (size matching =? 0)%nat then false
    else bool_decide (node_id n ∈ matching) in
  let dimmed := negb (size matching =? 0)%nat && negb isMatch in
  {| rf_id := String_of (node_id n);
     rf_type := "hex";
     data := {| data_label := name n; dimmed := dimmed;
                highlighted := isMatch |};
     position :=
       default {| x := 80 + Math_random_times 420 (2 * i);
                  y := 80 + Math_random_times 420 (2 * i + 1) |} saved |}.

Definition nextRfEdge (matching : gset Z) (e : EdgeT) : RFEdge :=
  let dimmed :=
    negb (size matching =? 0)%nat
    && (negb (bool_decide (from_node_id e ∈ matching))
        || negb (bool_decide (to_node_id e ∈ matching))) in
  {| rfe_id := String_of (edge_id e);
     source := String_of (from_node_id e);
     target := String_of (to_node_id e);
     rfe_type := "straight";
     rfe_label := default "" (label e);
     style := {| stroke := edgeStroke (edge_type e);
                 strokeWidth := (5 # 2)%Q;
                 opacity := Some (if dimmed then (15 # 100)%Q else 1%Q) |} |}.

(** rebuilds react flow nodes/edges when graph selection or backend data
    changes.  React runs this effect after every commit that replaced
    [nodes], [edges], the selection or the search matches. *)
Definition rebuildView `{Platform} (st : AppState) : AppState :=
  if negb (truthy (selectedGraphId st)) then setRfEdges [] (setRfNodes [] st)
  else
    match loadPositions (localStorage st) (default 0 (selectedGraphId st)) with
    | Throw => st
    | Normal pos =>
        let nextRfNodes := imap (nextRfNode pos (matchingNodeIds st)) (graphNodes st) in
        let nextRfEdges := nextRfEdge (matchingNodeIds st) <$> graphEdges st in
        setRfEdges nextRfEdges (setRfNodes nextRfNodes st)
    end.

(** ** Persisting and grouping positions *)

(** The loop [for (const n of nextNodes) map[n.id] = {x, y}]. *)
Definition positions_of (nextNodes : list RFNode) : PosMap :=
  foldl (λ map n, <[rf_id n := {| x := x (position n); y := y (position n) |}]> map)
        ∅ nextNodes.

(** writes current node positions to localStorage *)
Definition persistPositions `{Platform} (nextNodes : list RFNode)
    (st : AppState) : AppState :=
  if negb (truthy (selectedGraphId st)) then st
  else setLocalStorage
         (savePositions (default 0 (selectedGraphId st))
                        (positions_of nextNodes) (localStorage st)) st.

(** [Math.ceil(Math.sqrt(n))] for an array length [n]: on the integers
    below 2^32 the double-precision square root and its ceiling are exactly
    the integer square root, rounded up. *)
Definition Math_ceil_sqrt (n : Z) : Z :=
  let r := Z.sqrt n in
  if r * r =? n then r else r + 1.

Definition grouped_node (cols : Z) (index : nat) (node : RFNode) : RFNode :=
  let spacing := 120 in
  let startX := 200 in
  let startY := 200 in
  let row := Z.of_nat index / cols in
  let col := Z.rem (Z.of_nat index) cols in
  {| rf_id := rf_id node; rf_type := rf_type node; data := data node;
     position := {| x := startX + col * spacing; y := startY + row * spacing |} |}.

(** groups all nodes together in a compact layout.  The call of [fitView]
    on the canvas instance only moves the viewport of the rendering library
    and leaves the state of the component alone. *)
Definition groupNodesCenter `{Platform} (st : AppState) : AppState :=
  if negb (truthy (selectedGraphId st)) || (length (rfNodes st) =? 0)%nat then st
  else
    let nodeCount := Z.of_nat (length (rfNodes st)) in
    let cols := Math_ceil_sqrt nodeCount in
    let updatedNodes := imap (grouped_node cols) (rfNodes st) in
    persistPositions updatedNodes (setRfNodes updatedNodes st).

(** ** Optimistic edge creation *)

Definition duplicate_edge_message : string := "That edge already exists.".

Definition network_error_message : string :=
  "Failed to create edge (network error)".

(** [`Failed to create edge (${res.status}): ${msg}`] *)
Definition failed_edge_message (status : Z) (msg : string) : string :=
  "Failed to create edge (" +:+ String_of status +:+ "): " +:+ msg.

Definition created_rf_edge (created : EdgeT) : RFEdge :=
  {| rfe_id := String_of (edge_id created);
     source := String_of (from_node_id created);
     target := String_of (to_node_id created);
     rfe_type := "straight";
     rfe_label := default "" (label created);
     style := {| stroke := edgeStroke (edge_type created);
                 strokeWidth := (5 # 2)%Q;
                 opacity := None |} |}.

(** The first two steps of [onConnect] once its guards passed: the error
    banner is cleared and the drawn connection is put on the canvas. *)
Definition optimistic_edge `{Platform} (connection : Connection)
    (st : AppState) : AppState :=
  let st0 := setError None st in
  setRfEdges
    (addEdge {| ep_connection := connection; ep_type := "straight";
                ep_stroke := edgeStroke positive;
                ep_strokeWidth := (5 # 2)%Q |}
             (rfEdges st0)) st0.

(** creates edge in backend when user connects two nodes in ui.
    [create_reply] is the settled [apiFetch] of [POST /edges/] (its body
    carries [Number(connection.source)], [Number(connection.target)] and
    the type [positive]); [reload] are the replies to the requests of the
    [loadAll] that a failure triggers. *)
Definition onConnect `{Platform} (connection : Connection)
    (create_reply : Settled (Response EdgeT)) (reload : LoadReplies)
    (st : AppState) : AppState :=
  let st0 := setError None st in
  if negb (truthy_str (authToken st)) then setError (Some "Not authenticated.") st0
  else if negb (truthy_str (conn_source connection))
          || negb (truthy_str (conn_target connection)) then st0
  else
    let st1 := optimistic_edge connection st in
    let catch := setError (Some network_error_message) (loadAll reload st1) in
    match await create_reply with
    | Throw => catch
    | Normal res =>
        if negb (ok res) then
          match await (res_text res) with
          | Throw => catch
          | Normal msg =>
              setError
                (Some (if status res =? 409 then duplicate_edge_message
                       else failed_edge_message (status res) msg))
                (loadAll reload st1)
          end
        else
          match await (res_json res) with
          | Throw => catch
          | Normal created =>
              let st2 := setEdges (edges st1 ++ [created]) st1 in
              setRfEdges
                (filter (λ e, ¬ (Some (source e) = conn_source connection
                                 ∧ Some (target e) = conn_target connection))
                        (rfEdges st2)
                 ++ [created_rf_edge created]) st2
          end
    end.

(** ** A test platform and sample data

    A small stand-in for the browser, used to run the component on concrete
    inputs: a two-entry JSON codec, constant random draws and clock, and an
    [addEdge] that appends the edge under the id the rendering library
    generates for a connection. *)

#[global] Instance XY_eq_dec : EqDecision XY.
Proof. solve_decision. Defined.

Definition sample_positions : PosMap :=
  {[ "1" := {| x := 200; y := 200 |} ]}.

Definition test_JSON_stringify (map : PosMap) : string :=
  if bool_decide (map = sample_positions) then "sample" else "{}".

Definition test_JSON_parse (raw : string) : Completion PosMap :=
  if bool_decide (raw = "sample") then Normal sample_positions
  else if bool_decide (raw = "{}") then Normal ∅
  else Throw.

Definition test_addEdge (params : EdgeParams) (eds : list RFEdge) : list RFEdge :=
  let src := default "" (conn_source (ep_connection params)) in
  let tgt := default "" (conn_target (ep_connection params)) in
  eds ++ [ {| rfe_id := "reactflow__edge-" +:+ src +:+ "-" +:+ tgt;
              source := src; target := tgt;
              rfe_type := ep_type params; rfe_label := "";
              style := {| stroke := ep_stroke params;
                          strokeWidth := ep_strokeWidth params;
                          opacity := None |} |} ].

Definition test_platform : Platform :=
  {| JSON_stringify := test_JSON_stringify;
     JSON_parse := test_JSON_parse;
     Math_random_times := λ _ _, 0;
     Date_now := 0;
     addEdge := test_addEdge |}.

(** [JSON.parse] on the texts used below: [null], [{}], [7] and [[]];
    every other text of the examples is not JSON. *)
Definition test_JSON_parse_any (raw : string) : Completion JSONValue :=
  if bool_decide (raw = "null") then Normal JNull
  else if bool_decide (raw = "{}") then Normal (JObject [])
  else if bool_decide (raw = "7") then Normal (JNumber 7)
  else if bool_decide (raw = "[]") then Normal (JArray [])
  else Throw.

Definition test_raw_json : RawJSON :=
  {| JSON_parse_any := test_JSON_parse_any |}.

Definition Armbar : NodeT := {| node_id := 1; name := "Armbar"; graph_id := 1 |}.
Definition Kimura : NodeT := {| node_id := 2; name := "Kimura"; graph_id := 1 |}.
Definition Armdrag : NodeT := {| node_id := 3; name := "Armdrag"; graph_id := 1 |}.
Definition Sweep : NodeT := {| node_id := 4; name := "Sweep"; graph_id := 2 |}.

Definition E1 : EdgeT :=
  {| edge_id := 1; from_node_id := 1; to_node_id := 2;
     edge_type := positive; label := None |}.
Definition E2 : EdgeT :=
  {| edge_id := 2; from_node_id := 2; to_node_id := 3;
     edge_type := neutral; label := Some "grip" |}.
Definition E3 : EdgeT :=
  {| edge_id := 3; from_node_id := 3; to_node_id := 4;
     edge_type := negative; label := None |}.

Definition sample_rf_node (i : Z) : RFNode :=
  {| rf_id := String_of i; rf_type := "hex";
     data := {| data_label := "n"; dimmed := false; highlighted := false |};
     position := {| x := 13 * i; y := 7 |} |}.

Definition sample_state : AppState :=
  {| users := [ {| user_id := 1; user_name := "ann"; email := "ann@mat" |} ];
     graphs := [ {| graph_ident := 1; title := "guard"; owner_id := 1 |};
                 {| graph_ident := 2; title := "half"; owner_id := 1 |} ];
     nodes := [Armbar; Kimura; Armdrag; Sweep];
     edges := [E1; E2; E3];
     selectedUserId := Some 1;
     selectedGraphId := Some 1;
     error := None;
     authToken := Some "token";
     rfNodes := sample_rf_node <$> [1; 2; 3];
     rfEdges := [];
     searchQuery := "arm";
     localStorage := ∅ |}.

Definition with_query (q : string) (st : AppState) : AppState :=
  {| users := users st; graphs := graphs st; nodes := nodes st; edges := edges st;
     selectedUserId := selectedUserId st; selectedGraphId := selectedGraphId st;
     error := error st; authToken := authToken st; rfNodes := rfNodes st;
     rfEdges := rfEdges st; searchQuery := q;
     localStorage := localStorage st |}.

Definition sample_connection : Connection :=
  {| conn_source := Some "1"; conn_target := Some "2";
     sourceHandle := None; targetHandle := None |}.

Definition response_of {J} (code : Z) (body : Settled string) : Response J :=
  {| status := code; res_text := body; res_json := Rejected |}.

Definition replies_ok : LoadReplies :=
  {| users_reply := Fulfilled (users sample_state);
     graphs_reply := Fulfilled (graphs sample_state);
     nodes_reply := Fulfilled [Armbar; Kimura];
     edges_reply := Fulfilled [E1] |}.

Definition replies_nodes_rejected : LoadReplies :=
  {| users_reply := Fulfilled [];
     graphs_reply := Fulfilled [];
     nodes_reply := Rejected;
     edges_reply := Fulfilled [] |}.

(** ** Token and theme in [localStorage] *)

Definition TOKEN_KEY : string := "matlogic:token".

Definition THEME_KEY : string := "matlogic:theme".

(** [localStorage.removeItem], on the store of [localStorage_setItem]. *)
Definition localStorage_removeItem (key : string) (ls : Storage)
  : Completion Storage :=
  Normal (delete key ls).

Definition getToken (ls : Storage) : option string :=
  match localStorage_getItem TOKEN_KEY ls with
  | Normal token => token
  | Throw => None
  end.

Definition setToken (token : option string) (ls : Storage) : Storage :=
  match (if truthy_str token
         then localStorage_setItem TOKEN_KEY (default "" token) ls
         else localStorage_removeItem TOKEN_KEY ls) with
  | Normal ls' => ls'
  | Throw => ls
  end.

Inductive Theme := light | dark.

(** The text React stores for a theme. *)
Definition theme_text (theme : Theme) : string :=
  match theme with
  | light => "light"
  | dark => "dark"
  end.

(** The initial value of the [theme] state:
    [saved === "dark" ? "dark" : "light"]. *)
Definition initialTheme (ls : Storage) : Theme :=
  if bool_decide (ls !! THEME_KEY = Some "dark") then dark else light.

(** The effect on [theme]: [localStorage.setItem("matlogic:theme", theme)]. *)
Definition storeTheme (theme : Theme) (ls : Storage) : Storage :=
  <[THEME_KEY := theme_text theme]> ls.

(** The updater of the theme button. *)
Definition toggleTheme (t : Theme) : Theme :=
  match t with
  | dark => light
  | light => dark
  end.

(** ** Deleting edges and the delete key *)

Definition deleteEdgesById (DELETE : Z → Settled (Response unit))
    (ids : list Z) (st : AppState) : Completion unit * AppState :=
  if (length ids =? 0)%nat then (Normal (), st)
  else
    match await (Promise_all (DELETE <$> ids)) with
    | Throw => (Throw, st)
    | Normal _ =>
        (Normal (),
         setEdges (filter (λ e, negb (Array_includes ids (edge_id e)) = true)
                          (edges st)) st)
    end.

(** What [isTypingInEditableElement] reads of an [HTMLElement]. *)
Record HTMLElement := {
  tagName : string;
  isContentEditable : bool
}.

(** [target] is [None] when the event target is not an [HTMLElement]. *)
Definition isTypingInEditableElement (target : option HTMLElement) : bool :=
  match target with
  | None => false
  | Some el =>
      let tag := tagName el in
      let isInputLike :=
        bool_decide (tag = "INPUT") || bool_decide (tag = "TEXTAREA")
        || bool_decide (tag = "SELECT") in
      isInputLike || isContentEditable el
  end.

Record KeyboardEvent := {
  ev_key : string;
  ev_target : option HTMLElement
}.

(** The two selection states [selectedNodeIds] and [selectedEdgeIds]. *)
Record Selection := {
  selectedNodeIds : list Z;
  selectedEdgeIds : list Z
}.

(** The [keydown] listener.  [DELETE_edge] and [DELETE_node] are the
    settled delete requests per id; the result is the component state and
    the selection after the handler has run. *)
Definition onKeyDown (DELETE_edge DELETE_node : Z → Settled (Response unit))
    (e : KeyboardEvent) (st : AppState) (sel : Selection)
  : AppState * Selection :=
  if isTypingInEditableElement (ev_target e) then (st, sel)
  else if negb (bool_decide (ev_key e = "Backspace"))
          && negb (bool_decide (ev_key e = "Delete")) then (st, sel)
  else
    let failed (st' : AppState) (sel' : Selection) :=
      (setError (Some "Failed to delete selection") st', sel') in
    let after_edges :=
      if (0 <? length (selectedEdgeIds sel))%nat then
        match deleteEdgesById DELETE_edge (selectedEdgeIds sel) st with
        | (Normal _, st1) =>
            (Normal (), st1,
             {| selectedNodeIds := selectedNodeIds sel; selectedEdgeIds := [] |})
        | (Throw, st1) => (Throw, st1, sel)
        end
      else (Normal (), st, sel) in
    match after_edges with
    | (Throw, st1, sel1) => failed st1 sel1
    | (Normal _, st1, sel1) =>
        if (0 <? length (selectedNodeIds sel))%nat then
          match deleteNodesById DELETE_node (selectedNodeIds sel) st1 with
          | (Normal _, st2) =>
              (st2, {| selectedNodeIds := [];
                       selectedEdgeIds := selectedEdgeIds sel1 |})
          | (Throw, st2) => failed st2 sel1
          end
        else (st1, sel1)
    end.

(** ** Saving a technique draft *)

Inductive Method := PUT | POST.

(** A request to [/api/nodes/:id/technique] with the JSON body
    [{ video_url, steps }]. *)
Record TechniqueRequest := {
  req_method : Method;
  req_node : Z;
  req_video_url : string;
  req_steps : string
}.

(** saves technique data to backend; [server] gives the settled [fetch] of
    a request.  The result is the completion of the call and the requests
    it issued, in order. *)
Definition saveTechniqueDraft
    (server : TechniqueRequest → Settled (Response unit))
    (nodeId : Z) (draft : TechniqueDraft)
  : Completion unit * list TechniqueRequest :=
  let update := {| req_method := PUT; req_node := nodeId;
                   req_video_url := videoUrl draft; req_steps := steps draft |} in
  let create := {| req_method := POST; req_node := nodeId;
                   req_video_url := videoUrl draft; req_steps := steps draft |} in
  match await (server update) with
  | Throw => (Normal (), [update])
  | Normal updateRes =>
      if ok updateRes then (Normal (), [update])
      else if status updateRes =? 404 then
        match await (server create) with
        | Throw => (Normal (), [update; create])
        | Normal _ => (Normal (), [update; create])
        end
      else (Normal (), [update])
  end.

Definition setAuthToken (v : option string) (st : AppState) : AppState :=
  {| users := users st; graphs := graphs st; nodes := nodes st; edges := edges st;
     selectedUserId := selectedUserId st; selectedGraphId := selectedGraphId st;
     error := error st; authToken := v; rfNodes := rfNodes st;
     rfEdges := rfEdges st; searchQuery := searchQuery st;
     localStorage := localStorage st |}.

Definition setSearchQuery (v : string) (st : AppState) : AppState :=
  {| users := users st; graphs := graphs st; nodes := nodes st; edges := edges st;
     selectedUserId := selectedUserId st; selectedGraphId := selectedGraphId st;
     error := error st; authToken := authToken st; rfNodes := rfNodes st;
     rfEdges := rfEdges st; searchQuery := v;
     localStorage := localStorage st |}.

(** ** Creating nodes and graphs *)

(** The JSON body of [POST /nodes/]. *)
Record NodeRequest := {
  nr_name : string;
  nr_graph_id : Z
}.

(** The JSON body of [POST /graphs/]. *)
Record GraphRequest := {
  gr_title : string;
  gr_user_id : Z
}.

(** What a create handler leaves behind: the component state, the text of
    its input field, and the request it sent, if any. *)
Record Created (Req : Type) := {
  cr_state : AppState;
  cr_input : string;
  cr_request : option Req
}.
Arguments cr_state {Req} _.
Arguments cr_input {Req} _.
Arguments cr_request {Req} _.

(** [`Failed to create node (${res.status}): ${msg}`] *)
Definition failed_node_message (status : Z) (msg : string) : string :=
  "Failed to create node (" +:+ String_of status +:+ "): " +:+ msg.

(** [`Failed to create graph (${res.status}): ${msg}`] *)
Definition failed_graph_message (status : Z) (msg : string) : string :=
  "Failed to create graph (" +:+ String_of status +:+ "): " +:+ msg.

(** The canvas node [createNode] appends; its data carries the label only,
    so it is neither dimmed nor highlighted. *)
Definition created_rf_node `{Platform} (created : NodeT) : RFNode :=
  {| rf_id := String_of (node_id created);
     rf_type := "hex";
     data := {| data_label := name created; dimmed := false;
                highlighted := false |};
     position := {| x := 160 + Math_random_times 260 0;
                    y := 160 + Math_random_times 260 1 |} |}.

(** creates new node (technique) in backend for selected graph;
    [POST_reply] is the settled [apiFetch] of the request. *)
Definition createNode `{Platform} (newNodeName : string)
    (POST_reply : Settled (Response NodeT)) (st : AppState)
  : Created NodeRequest :=
  let st0 := setError None st in
  let stop (message : string) :=
    {| cr_state := setError (Some message) st0; cr_input := newNodeName;
       cr_request := None |} in
  if negb (truthy (selectedGraphId st)) then stop "Select a graph first."
  else if negb (truthy_str (authToken st)) then stop "Not authenticated."
  else
    let name := trim newNodeName in
    if is_empty_str name then stop "Technique name cannot be empty."
    else
      let request :=
        Some {| nr_name := name;
                nr_graph_id := default 0 (selectedGraphId st) |} in
      let failed (message : string) :=
        {| cr_state := setError (Some message) st0; cr_input := newNodeName;
           cr_request := request |} in
      let catch := failed "Failed to create node (network error)" in
      match await POST_reply with
      | Throw => catch
      | Normal res =>
          if negb (ok res) then
            match await (res_text res) with
            | Throw => catch
            | Normal msg => failed (failed_node_message (status res) msg)
            end
          else
            match await (res_json res) with
            | Throw => catch
            | Normal created =>
                let st1 := setNodes (nodes st0 ++ [created])%list st0 in
                let next := (rfNodes st1 ++ [created_rf_node created])%list in
                {| cr_state := setRfNodes next (persistPositions next st1);
                   cr_input := "";
                   cr_request := request |}
            end
      end.

(** [me?.id ?? selectedUserId ?? users[0]?.id] *)
Definition graph_owner (me : option User) (st : AppState) : option Z :=
  match me with
  | Some u => Some (user_id u)
  | None =>
      match selectedUserId st with
      | Some sel => Some sel
      | None => user_id <$> head (users st)
      end
  end.

(** creates new graph in backend *)
Definition createGraph (me : option User) (newGraphTitle : string)
    (POST_reply : Settled (Response Graph)) (st : AppState)
  : Created GraphRequest :=
  let st0 := setError None st in
  let title := trim newGraphTitle in
  let userId := graph_owner me st in
  let stop (message : string) :=
    {| cr_state := setError (Some message) st0; cr_input := newGraphTitle;
       cr_request := None |} in
  if is_empty_str title then stop "Graph title cannot be empty."
  else if negb (truthy userId) then stop "No user available to attach the graph to."
  else if negb (truthy_str (authToken st)) then stop "Not authenticated."
  else
    let request := Some {| gr_title := title; gr_user_id := default 0 userId |} in
    let failed (message : string) :=
      {| cr_state := setError (Some message) st0; cr_input := newGraphTitle;
         cr_request := request |} in
    let catch := failed "Failed to create graph (network error)" in
    match await POST_reply with
    | Throw => catch
    | Normal res =>
        if negb (ok res) then
          match await (res_text res) with
          | Throw => catch
          | Normal msg => failed (failed_graph_message (status res) msg)
          end
        else
          match await (res_json res) with
          | Throw => catch
          | Normal created =>
              {| cr_state :=
                   setSelectedGraphId (Some (graph_ident created))
                     (setGraphs (graphs st0 ++ [created])%list st0);
                 cr_input := "";
                 cr_request := request |}
          end
    end.

(** The [onChange] of the graph select; [graphId] is
    [Number(e.target.value)].  The third call, [setIsSearchOpen(false)],
    only closes the list of results. *)
Definition onGraphChange (graphId : Z) (st : AppState) : AppState :=
  setSearchQuery "" (setSelectedGraphId (Some graphId) st).

(** ** Session: who-am-I check and logout *)

Definition fetchMe (reply : Settled (Response User)) : Settled (option User) :=
  match reply with
  | Rejected => Rejected
  | Fulfilled res =>
      if negb (ok res) then Fulfilled None
      else match res_json res with
           | Fulfilled u => Fulfilled (Some u)
           | Rejected => Rejected
           end
  end.

(** The effect on [authToken]: validates the token and sets [me].  The
    check runs in an async function nobody awaits, so a rejected request
    changes nothing.  The result is the component state and [me]. *)
Definition checkToken (reply : Settled (Response User))
    (st : AppState) (me : option User) : AppState * option User :=
  if negb (truthy_str (authToken st)) then (st, None)
  else
    match fetchMe reply with
    | Rejected => (st, me)
    | Fulfilled None =>
        (setAuthToken None
           (setLocalStorage (setToken None (localStorage st)) st), None)
    | Fulfilled (Some u) => (st, Some u)
    end.

(** The [onClick] of the logout button. *)
Definition logout (st : AppState) : AppState * option User :=
  (setSelectedGraphId None
     (setSelectedUserId None
        (setEdges []
           (setNodes []
              (setGraphs []
                 (setUsers []
                    (setAuthToken None
                       (setLocalStorage (setToken None (localStorage st)) st))))))),
   None).

(** The JSON value a reply delivers: the request resolved, the status is a
    success and the body was read. *)
Definition reply_delivers {J} (reply : Settled (Response J)) : option J :=
  match reply with
  | Fulfilled res =>
      if ok res
      then match res_json res with
           | Fulfilled v => Some v
           | Rejected => None
           end
      else None
  | Rejected => None
  end.

(** [createNode] passes its three guards: a graph is selected, a token is
    present and the trimmed name is not empty. *)
Definition createNode_ready (newNodeName : string) (st : AppState) : bool :=
  truthy (selectedGraphId st) && truthy_str (authToken st)
  && negb (is_empty_str (trim newNodeName)).

(** [createGraph] passes its three guards: the trimmed title is not empty,
    an owner id is found and is not 0, and a token is present. *)
Definition createGraph_ready (me : option User) (newGraphTitle : string)
    (st : AppState) : bool :=
  negb (is_empty_str (trim newGraphTitle)) && truthy (graph_owner me st)
  && truthy_str (authToken st).

(** ** Canvas events: debounced saving and double clicks *)

(** Calls into the rendering library and the conversion [Number]. *)
Class Canvas := {
  NodeChange : Type;
  (** [onNodesChangeBase] of [useNodesState]: the canvas nodes after the
      changes the library reports. *)
  applyNodeChanges : list NodeChange → list RFNode → list RFNode;
  (** [Number(s)] for the id of a canvas element: [Some n] when it is the
      integer [n], [None] when it is not finite (a generated edge id). *)
  Number_ : string → option Z
}.

(** The ref [saveTimer] and the timeouts armed in the window; each armed
    timeout holds the graph id that [persistPositions] had captured when
    the timeout was set. *)
Record SaveTimers := {
  saveTimer : option Z;
  pending : gmap Z (option Z)
}.

(** handles node changes and debounces position persistence; [handle] is
    the id that [window.setTimeout] returns. *)
Definition onNodesChange `{Canvas} (changes : list NodeChange) (handle : Z)
    (st : AppState) (tm : SaveTimers) : AppState * SaveTimers :=
  let st1 := setRfNodes (applyNodeChanges changes (rfNodes st)) st in
  let cleared :=
    if truthy (saveTimer tm)
    then delete (default 0 (saveTimer tm)) (pending tm)
    else pending tm in
  (st1, {| saveTimer := Some handle;
           pending := <[handle := selectedGraphId st]> cleared |}).

(** An armed timeout runs its callback
    [setRfNodes((curr) => { persistPositions(curr); return curr; })], with
    the graph id the callback captured; a timeout that was cleared or has
    run does nothing. *)
Definition timeout_fires `{Platform} (handle : Z)
    (st : AppState) (tm : SaveTimers) : AppState * SaveTimers :=
  match pending tm !! handle with
  | None => (st, tm)
  | Some captured =>
      (setLocalStorage
         (localStorage
            (persistPositions (rfNodes st) (setSelectedGraphId captured st)))
         st,
       {| saveTimer := saveTimer tm; pending := delete handle (pending tm) |})
  end.

Inductive CanvasEvent `{Canvas} :=
| NodesChanged (changes : list NodeChange) (handle : Z)
| TimeoutFired (handle : Z).

Definition canvas_step `{Platform} `{Canvas} (s : AppState * SaveTimers)
    (event : CanvasEvent) : AppState * SaveTimers :=
  match event with
  | NodesChanged changes handle => onNodesChange changes handle s.1 s.2
  | TimeoutFired handle => timeout_fires handle s.1 s.2
  end.

Definition canvas_run `{Platform} `{Canvas} (events : list CanvasEvent)
    (s : AppState * SaveTimers) : AppState * SaveTimers :=
  foldl canvas_step s events.

(** The handles [window.setTimeout] returned are not 0. *)
Definition handles_nonzero `{Canvas} (events : list CanvasEvent) : Prop :=
  ∀ changes handle, NodesChanged changes handle ∈ events → handle ≠ 0.

(** At most the timeout of [saveTimer] is armed, and its handle is not 0. *)
Definition debounced (tm : SaveTimers) : Prop :=
  ∀ h, is_Some (pending tm !! h) → h ≠ 0 ∧ saveTimer tm = Some h.

(** The canvas nodes after a burst of change events, applied in order. *)
Definition after_changes `{Canvas} (burst : list (list NodeChange * Z))
    (nodes : list RFNode) : list RFNode :=
  foldl (λ l c, applyNodeChanges c.1 l) nodes burst.

Definition updateEdgeBackend (PUT_reply : Settled (Response unit))
    (st : AppState) : bool :=
  if negb (truthy_str (authToken st)) then false
  else match await PUT_reply with
       | Normal res => ok res
       | Throw => false
       end.

(** [{ ...e, style: { ...(e.style ?? {}), stroke, strokeWidth: 2.5 } }] *)
Definition with_stroke (nextType : EdgeTypeT) (e : RFEdge) : RFEdge :=
  {| rfe_id := rfe_id e; source := source e; target := target e;
     rfe_type := rfe_type e; rfe_label := rfe_label e;
     style := {| stroke := edgeStroke nextType; strokeWidth := (5 # 2)%Q;
                 opacity := opacity (style e) |} |}.

Definition edge_update_refused : string :=
  "edge updated in ui, but backend did not accept the update (add a put/patch endpoint for edges to persist this).".

(** The double click on the canvas edge [rfEdge]; [PUT_reply] is the
    settled request of [updateEdgeBackend]. *)
Definition onEdgeDoubleClick `{Canvas} (rfEdge : RFEdge)
    (PUT_reply : Settled (Response unit)) (st : AppState) : AppState :=
  match Number_ (rfe_id rfEdge) with
  | None => st
  | Some id =>
      let nextType := nextEdgeType (currentType id (edges st)) in
      let st1 := setEdges (onEdgeDoubleClick_edges id (edges st)) st in
      let st2 :=
        setRfEdges
          ((λ e, if bool_decide (rfe_id e = rfe_id rfEdge)
                 then with_stroke nextType e else e) <$> rfEdges st1) st1 in
      if updateEdgeBackend PUT_reply st then st2
      else setError (Some edge_update_refused) st2
  end.

(** ** Further test data *)

Definition sample_selection : Selection :=
  {| selectedNodeIds := [2]; selectedEdgeIds := [3] |}.

Definition delete_key : KeyboardEvent :=
  {| ev_key := "Delete"; ev_target := None |}.

Definition sample_draft : TechniqueDraft :=
  {| videoUrl := "https://x"; steps := "1) grip"; updatedAt := 0 |}.

Definition is_delete_key_press (e : KeyboardEvent) : bool :=
  negb (isTypingInEditableElement (ev_target e))
  && (bool_decide (ev_key e = "Backspace") || bool_decide (ev_key e = "Delete")).

(** A second test platform: as [test_platform], with every random draw 40. *)
Definition test_platform_40 : Platform :=
  {| JSON_stringify := test_JSON_stringify;
     JSON_parse := test_JSON_parse;
     Math_random_times := λ _ _, 40;
     Date_now := 0;
     addEdge := test_addEdge |}.

Definition move_node (change : string * XY) (n : RFNode) : RFNode :=
  if bool_decide (rf_id n = change.1)
  then {| rf_id := rf_id n; rf_type := rf_type n; data := data n;
          position := change.2 |}
  else n.

Definition test_Number (s : string) : option Z :=
  if bool_decide (s = "1") then Some 1
  else if bool_decide (s = "2") then Some 2
  else if bool_decide (s = "3") then Some 3
  else None.

(** A test canvas: a change moves the node with a given id, and [Number]
    reads the ids 1 to 3. *)
Definition test_canvas : Canvas :=
  {| NodeChange := string * XY;
     applyNodeChanges := λ changes l,
       foldl (λ l change, move_node change <$> l) l changes;
     Number_ := test_Number |}.

Definition no_timers : SaveTimers := {| saveTimer := None; pending := ∅ |}.

Definition origin_node : RFNode :=
  {| rf_id := "1"; rf_type := "hex";
     data := {| data_label := "Armbar"; dimmed := false; highlighted := false |};
     position := {| x := 200; y := 200 |} |}.

Definition empty_graph_state : AppState :=
  {| users := users sample_state; graphs := graphs sample_state;
     nodes := []; edges := [];
     selectedUserId := Some 1; selectedGraphId := Some 1;
     error := Some "old"; authToken := Some "token";
     rfNodes := []; rfEdges := []; searchQuery := "";
     localStorage := ∅ |}.

Definition created_response {J} (code : Z) (v : J) : Response J :=
  {| status := code; res_text := Rejected; res_json := Fulfilled v |}.

Definition E4 : EdgeT :=
  {| edge_id := 4; from_node_id := 1; to_node_id := 2;
     edge_type := positive; label := None |}.

Definition new_graph : Graph :=
  {| graph_ident := 3; title := "mount"; owner_id := 1 |}.

Definition input_element : HTMLElement :=
  {| tagName := "INPUT"; isContentEditable := false |}.

Definition rendered_E1 : RFEdge := nextRfEdge ∅ E1.

Definition state_with_canvas_edge : AppState := setRfEdges [rendered_E1] sample_state.

(** ** Vocabulary of the specification *)

(** One of the four requests of a bulk load rejected. *)
Definition any_rejected (replies : LoadReplies) : bool :=
  is_rejected (users_reply replies) || is_rejected (graphs_reply replies)
  || is_rejected (nodes_reply replies) || is_rejected (edges_reply replies).

(** The name of [n] contains [query] as a case-insensitive substring. *)
Definition contains_ci (query : string) (n : NodeT) : bool :=
  includes (toLowerCase (name n)) (toLowerCase query).

(** Every character of [s] is white space. *)
Fixpoint whitespace_only (s : string) : bool :=
  match s with
  | EmptyString => true
  | String c s' => is_space c && whitespace_only s'
  end.

(** The banner [onConnect] shows for a response that is not [ok]. *)
Definition create_failure_message (res : Response EdgeT) : string :=
  match res_text res with
  | Fulfilled msg =>
      if status res =? 409 then duplicate_edge_message
      else failed_edge_message (status res) msg
  | Rejected => network_error_message
  end.

(** The node [node] moved to the grid cell of index [i] in a grid of
    [cols] columns, spacing 120, origin (200, 200). *)
Definition at_grid_cell (cols : Z) (i : nat) (node : RFNode) : RFNode :=
  {| rf_id := rf_id node; rf_type := rf_type node; data := data node;
     position := {| x := 200 + (Z.of_nat i mod cols) * 120;
                    y := 200 + (Z.of_nat i / cols) * 120 |} |}.

(** * Properties *)

(** ** Edge cycling *)

Lemma currentType_retyped (id : Z) (t : EdgeTypeT) (edges : list EdgeT) :
  currentType id ((λ e, if edge_id e =? id then with_edge_type t e else e) <$> edges)
  = match find (λ e, edge_id e =? id) edges with
    | Some _ => t
    | None => positive
    end.
Proof.
  unfold currentType. induction edges as [|e edges IH]; [done|].
  rewrite fmap_cons. simpl.
  destruct (edge_id e =? id) eqn:He; simpl; rewrite He; [done|exact IH].
Qed.

Lemma find_retyped (id : Z) (t : EdgeTypeT) (edges : list EdgeT) :
  is_Some (find (λ e, edge_id e =? id)
             ((λ e, if edge_id e =? id then with_edge_type t e else e) <$> edges))
  ↔ is_Some (find (λ e, edge_id e =? id) edges).
Proof.
  induction edges as [|e edges IH]; [done|].
  rewrite fmap_cons. simpl.
  destruct (edge_id e =? id) eqn:He; simpl; rewrite He; [|exact IH].
  split; eauto.
Qed.

Lemma currentType_double_click (id : Z) (edges : list EdgeT) :
  currentType id (onEdgeDoubleClick_edges id edges)
  = match find (λ e, edge_id e =? id) edges with
    | Some _ => nextEdgeType (currentType id edges)
    | None => currentType id edges
    end.
Proof.
  unfold onEdgeDoubleClick_edges. rewrite currentType_retyped.
  unfold currentType. by destruct (find _ edges).
Qed.

(** C9.  [nextEdgeType] is a 3-cycle on the three edge types: it never
    returns its argument, and three applications give the argument back;
    so three double clicks on an edge leave the classification that
    [onEdgeDoubleClick] reads for it as it was. *)
Theorem nextEdgeType_three_cycle (t : EdgeTypeT) :
  nextEdgeType t ≠ t
  ∧ nextEdgeType (nextEdgeType (nextEdgeType t)) = t
  ∧ ∀ id edges,
      currentType id
        (onEdgeDoubleClick_edges id
           (onEdgeDoubleClick_edges id (onEdgeDoubleClick_edges id edges)))
      = currentType id edges.
Proof.
  split; [by destruct t|]. split; [by destruct t|].
  intros id edges. rewrite !currentType_double_click.
  destruct (find _ (onEdgeDoubleClick_edges id (onEdgeDoubleClick_edges id edges)))
    as [e2|] eqn:H2.
  - assert (H1 : is_Some (find (λ e, edge_id e =? id) (onEdgeDoubleClick_edges id edges))).
    { apply (find_retyped id (nextEdgeType (currentType id (onEdgeDoubleClick_edges id edges)))).
      unfold onEdgeDoubleClick_edges in H2 at 1. rewrite H2. eauto. }
    assert (H0 : is_Some (find (λ e, edge_id e =? id) edges)).
    { apply (find_retyped id (nextEdgeType (currentType id edges))). exact H1. }
    destruct H1 as [e1 ->], H0 as [e0 ->].
    by destruct (currentType id edges).
  - destruct (find _ (onEdgeDoubleClick_edges id edges)) as [e1|] eqn:H1.
    + exfalso.
      assert (Hs : is_Some (find (λ e, edge_id e =? id)
                (onEdgeDoubleClick_edges id (onEdgeDoubleClick_edges id edges)))).
      { unfold onEdgeDoubleClick_edges at 1. apply find_retyped. rewrite H1. eauto. }
      rewrite H2 in Hs. by destruct Hs.
    + destruct (find _ edges) as [e0|] eqn:H0; [|done].
      exfalso.
      assert (Hs : is_Some (find (λ e, edge_id e =? id)
                              (onEdgeDoubleClick_edges id edges))).
      { unfold onEdgeDoubleClick_edges. apply find_retyped. rewrite H0. eauto. }
      rewrite H1 in Hs. by destruct Hs.
Qed.

(** ** Generic facts about the modelled built-ins *)

Lemma truthy_Some_nonzero (G : Z) : G ≠ 0 → truthy (Some G) = true.
Proof. intros HG. simpl. apply negb_true_iff, Z.eqb_neq, HG. Qed.

Lemma Promise_all_fulfilled {A} (ps : list (Settled A)) :
  Forall (λ p, is_rejected p = false) ps → ∃ vs, Promise_all ps = Fulfilled vs.
Proof.
  induction 1 as [|p ps Hp _ [vs IH]]; simpl; [by eexists|].
  destruct p as [v|]; [|discriminate]. rewrite IH. by eexists.
Qed.

Lemma Promise_all_rejected {A} (ps : list (Settled A)) :
  Exists (λ p, is_rejected p = true) ps → Promise_all ps = Rejected.
Proof.
  induction 1 as [p ps Hp|p ps _ IH]; simpl.
  - by destruct p.
  - destruct p; [by rewrite IH|done].
Qed.

Section WithPlatform.
Context `{Platform}.

Lemma loadPositions_cases (ls : Storage) (graphId : Z) :
  loadPositions ls graphId =
    match ls !! posKey graphId with
    | None => Normal ∅
    | Some raw =>
        if bool_decide (raw = "") then Normal ∅
        else match JSON_parse raw with
             | Normal map => Normal map
             | Throw => Normal ∅
             end
    end.
Proof.
  unfold loadPositions, localStorage_getItem; simpl.
  destruct (ls !! posKey graphId) as [raw|]; simpl; [|done].
  case_bool_decide; simpl; [done|]. by destruct (JSON_parse raw).
Qed.

Lemma loadPositions_normal (ls : Storage) (graphId : Z) :
  ∃ map, loadPositions ls graphId = Normal map.
Proof.
  rewrite loadPositions_cases.
  destruct (ls !! posKey graphId) as [raw|]; [|by eexists].
  case_bool_decide; [by eexists|]. destruct (JSON_parse raw); by eexists.
Qed.

(** ** The view model of the selected graph *)

Lemma rebuildView_selected (st : AppState) :
  truthy (selectedGraphId st) = true →
  ∃ pos,
    loadPositions (localStorage st) (default 0 (selectedGraphId st)) = Normal pos
    ∧ rebuildView st =
        setRfEdges (nextRfEdge (matchingNodeIds st) <$> graphEdges st)
          (setRfNodes (imap (nextRfNode pos (matchingNodeIds st)) (graphNodes st)) st).
Proof.
  intros Hsel. unfold rebuildView. rewrite Hsel. simpl.
  destruct (loadPositions_normal (localStorage st) (default 0 (selectedGraphId st)))
    as [pos Hpos].
  exists pos. by rewrite Hpos.
Qed.

(** C1.  With a graph [G] selected (the stored id passes the guard of the
    memos, so it is not 0), the nodes handed to the canvas are the backend
    nodes filtered by [graph_id = G], in order; the edges handed to the
    canvas are the backend edges filtered to those whose two endpoints are
    ids of that node list; and every edge the rebuilt canvas renders comes
    from a backend edge with both endpoints in it. *)
Theorem graph_view_is_filtered (st : AppState) (G : Z) :
  selectedGraphId st = Some G → G ≠ 0 →
  let shown := filter (λ n, graph_id n = G) (nodes st) in
  let inside := λ e, from_node_id e ∈ node_id <$> shown
                     ∧ to_node_id e ∈ node_id <$> shown in
  graphNodes st = shown
  ∧ graphEdges st = filter inside (edges st)
  ∧ rf_id <$> rfNodes (rebuildView st) = (λ n, String_of (node_id n)) <$> shown
  ∧ rfEdges (rebuildView st)
    = nextRfEdge (matchingNodeIds st) <$> filter inside (edges st)
  ∧ ∀ e, e ∈ edges st → ¬ inside e → e ∉ graphEdges st.
Proof.
  intros Hsel HG shown inside.
  assert (Htr : truthy (selectedGraphId st) = true)
    by (rewrite Hsel; by apply truthy_Some_nonzero).
  assert (Hn : graphNodes st = shown).
  { unfold graphNodes. rewrite Htr. simpl. rewrite Hsel.
    apply list_filter_iff. intros n. split; [by intros [= ->]|by intros ->]. }
  assert (He : graphEdges st = filter inside (edges st)).
  { unfold graphEdges. rewrite Htr, Hn. simpl.
    apply list_filter_iff. intros e. unfold inside.
    rewrite andb_true_iff, !bool_decide_eq_true, !elem_of_list_to_set. done. }
  destruct (rebuildView_selected st Htr) as (pos & _ & ->).
  repeat split; try done.
  - simpl. rewrite Hn. rewrite fmap_imap. apply list_eq. intros i.
    rewrite list_lookup_imap, list_lookup_fmap. by destruct (shown !! i).
  - simpl. by rewrite He.
  - intros e _ Hout. rewrite He. rewrite list_elem_of_filter. tauto.
Qed.

(** ** Bulk load *)

Lemma loadAll_authenticated_cases (replies : LoadReplies) (st : AppState) :
  truthy_str (authToken st) = true →
  any_rejected replies = true →
  loadAll replies st = setError (Some "Failed to load data from backend") st.
Proof.
  intros Hauth Hrej. unfold loadAll. rewrite Hauth. simpl.
  unfold any_rejected in Hrej.
  destruct (users_reply replies), (graphs_reply replies),
    (nodes_reply replies), (edges_reply replies); simpl in Hrej;
    try discriminate; reflexivity.
Qed.

(** C3.  When one of the four requests of [loadAll] rejects, the four
    collections (and both selections) are left as they were, whatever the
    other three requests delivered; the requests are issued when a token is
    present, and then the whole effect of the call is the single message
    ["Failed to load data from backend"] in the error slot. *)
Theorem loadAll_rejection_keeps_collections (replies : LoadReplies) (st : AppState) :
  any_rejected replies = true →
  let st' := loadAll replies st in
  users st' = users st ∧ graphs st' = graphs st
  ∧ nodes st' = nodes st ∧ edges st' = edges st
  ∧ selectedUserId st' = selectedUserId st
  ∧ selectedGraphId st' = selectedGraphId st
  ∧ (truthy_str (authToken st) = true →
     st' = setError (Some "Failed to load data from backend") st).
Proof.
  intros Hrej st'. subst st'.
  destruct (truthy_str (authToken st)) eqn:Hauth.
  - rewrite loadAll_authenticated_cases by done. by repeat split.
  - unfold loadAll. rewrite Hauth. simpl. by repeat split.
Qed.

Lemma loadAll_fulfilled (replies : LoadReplies) (st : AppState) u g n e :
  truthy_str (authToken st) = true →
  users_reply replies = Fulfilled u → graphs_reply replies = Fulfilled g →
  nodes_reply replies = Fulfilled n → edges_reply replies = Fulfilled e →
  let st' := loadAll replies st in
  users st' = u ∧ graphs st' = g ∧ nodes st' = n ∧ edges st' = e
  ∧ rfNodes st' = rfNodes st ∧ rfEdges st' = rfEdges st
  ∧ error st' = None ∧ localStorage st' = localStorage st.
Proof.
  intros Hauth Hu Hg Hn He. unfold loadAll. rewrite Hauth, Hu, Hg, Hn, He. simpl.
  destruct u as [|u0 ?], g as [|g0 ?];
    destruct (is_null (selectedUserId st)), (is_null (selectedGraphId st));
    by repeat split.
Qed.

(** ** Deleting nodes *)

(** C4 (amended).  For a non-empty list of ids: when every delete request
    resolves with a response, whatever its HTTP status, [deleteNodesById]
    ends normally and leaves exactly the nodes whose id is not in the list
    and exactly the edges with neither endpoint in the list, in their
    former order; when one of the requests rejects, the call throws and the
    state is the one it started from. *)
Theorem deleteNodesById_prunes_when_requests_resolve
    (DELETE : Z → Settled (Response unit)) (ids : list Z) (st : AppState) :
  ids ≠ [] →
  (Forall (λ id, is_rejected (DELETE id) = false) ids →
   ∃ st', deleteNodesById DELETE ids st = (Normal (), st')
     ∧ nodes st' = filter (λ n, node_id n ∉ ids) (nodes st)
     ∧ edges st' = filter (λ e, (from_node_id e ∉ ids) ∧ (to_node_id e ∉ ids)) (edges st)
     ∧ (∀ n, n ∈ nodes st' ↔ (n ∈ nodes st ∧ node_id n ∉ ids))
     ∧ (∀ e, e ∈ edges st' ↔
             (e ∈ edges st ∧ (from_node_id e ∉ ids) ∧ (to_node_id e ∉ ids))))
  ∧ (Exists (λ id, is_rejected (DELETE id) = true) ids →
     deleteNodesById DELETE ids st = (Throw, st)).
Proof.
  intros Hne. unfold deleteNodesById.
  assert (Hlen : (length ids =? 0)%nat = false)
    by (destruct ids; [done|reflexivity]).
  rewrite Hlen. split.
  - intros Hall.
    destruct (Promise_all_fulfilled (DELETE <$> ids)) as [vs ->].
    { by apply Forall_fmap. }
    simpl. eexists. split; [reflexivity|]. simpl.
    assert (Hn : filter (λ n, negb (Array_includes ids (node_id n)) = true) (nodes st)
                 = filter (λ n, node_id n ∉ ids) (nodes st)).
    { apply list_filter_iff. intros n. unfold Array_includes.
      by rewrite negb_true_iff, bool_decide_eq_false. }
    assert (He : filter (λ e, (negb (Array_includes ids (from_node_id e))
                               && negb (Array_includes ids (to_node_id e))) = true)
                        (edges st)
                 = filter (λ e, (from_node_id e ∉ ids) ∧ (to_node_id e ∉ ids)) (edges st)).
    { apply list_filter_iff. intros e. unfold Array_includes.
      by rewrite andb_true_iff, !negb_true_iff, !bool_decide_eq_false. }
    rewrite Hn, He. split; [done|]. split; [done|].
    split; intros v; rewrite list_elem_of_filter; tauto.
  - intros Hex. rewrite Promise_all_rejected; [done|].
    by apply Exists_fmap.
Qed.

(** ** Position persistence *)

Lemma loadPositions_unchecked_cases `{RawJSON} (ls : Storage) (graphId : Z) :
  loadPositions_unchecked ls graphId =
    match ls !! posKey graphId with
    | None => Normal (JObject [])
    | Some raw =>
        if bool_decide (raw = "") then Normal (JObject [])
        else match JSON_parse_any raw with
             | Normal v => Normal v
             | Throw => Normal (JObject [])
             end
    end.
Proof.
  unfold loadPositions_unchecked, localStorage_getItem; simpl.
  destruct (ls !! posKey graphId) as [raw|]; simpl; [|done].
  case_bool_decide; simpl; [done|]. by destruct (JSON_parse_any raw).
Qed.

(** C10 (amended).  [loadPositions] never throws: for every store and
    graph id it ends normally with a value.  The value is the empty object,
    which reads as the empty position map, when nothing or the empty string
    is stored under the key of the graph and when the stored text does not
    parse; in every other case it is the value the stored text parses to,
    returned unchecked, whether or not that value is a position map. *)
Theorem loadPositions_never_throws `{RawJSON} (ls : Storage) (graphId : Z) :
  (∃ v, loadPositions_unchecked ls graphId = Normal v)
  ∧ as_PosMap (JObject []) = Some ∅
  ∧ (ls !! posKey graphId = None →
     loadPositions_unchecked ls graphId = Normal (JObject []))
  ∧ (ls !! posKey graphId = Some "" →
     loadPositions_unchecked ls graphId = Normal (JObject []))
  ∧ (∀ raw, ls !! posKey graphId = Some raw → JSON_parse_any raw = Throw →
            loadPositions_unchecked ls graphId = Normal (JObject []))
  ∧ (∀ raw v, ls !! posKey graphId = Some raw → raw ≠ "" →
              JSON_parse_any raw = Normal v →
              loadPositions_unchecked ls graphId = Normal v).
Proof.
  rewrite loadPositions_unchecked_cases.
  split.
  { destruct (ls !! posKey graphId) as [raw|]; [|by eexists].
    case_bool_decide; [by eexists|]. destruct (JSON_parse_any raw); by eexists. }
  split; [reflexivity|].
  split; [by intros ->|].
  split; [by intros ->|].
  split.
  - intros raw -> Hparse. rewrite Hparse. by case_bool_decide.
  - intros raw v -> Hne Hparse. rewrite Hparse. by case_bool_decide.
Qed.

(** On a store whose text under the key of the graph encodes a position
    map, [loadPositions] at its declared type returns the map that the
    unchecked value reads as. *)
Lemma loadPositions_typed_view `{RawJSON}
    (ls : Storage) (graphId : Z) (raw : string) (v : JSONValue) (map : PosMap) :
  ls !! posKey graphId = Some raw → raw ≠ "" →
  JSON_parse_any raw = Normal v → as_PosMap v = Some map →
  JSON_parse raw = Normal map →
  loadPositions_unchecked ls graphId = Normal v
  ∧ loadPositions ls graphId = Normal map.
Proof.
  intros Hraw Hne Hany _ Htyped.
  rewrite loadPositions_unchecked_cases, loadPositions_cases, Hraw, Hany, Htyped.
  by case_bool_decide.
Qed.

Lemma savePositions_insert (graphId : Z) (map : PosMap) (ls : Storage) :
  savePositions graphId map ls = <[posKey graphId := JSON_stringify map]> ls.
Proof. reflexivity. Qed.

(** C5.  Saving the map [M] for graph [G] and loading the positions of
    [G] from the resulting store gives [M] back, hence the same [{x, y}]
    for every node id of [M]; the JSON text of [M] is assumed to parse back
    to [M] and, like every JSON text, not to be the empty string. *)
Theorem positions_round_trip (ls : Storage) (G : Z) (M : PosMap) :
  JSON_parse (JSON_stringify M) = Normal M →
  JSON_stringify M ≠ "" →
  loadPositions (savePositions G M ls) G = Normal M
  ∧ ∀ id xy, M !! id = Some xy →
      ∃ loaded, loadPositions (savePositions G M ls) G = Normal loaded
                ∧ loaded !! id = Some xy.
Proof.
  intros Hparse Hne.
  assert (Hload : loadPositions (savePositions G M ls) G = Normal M).
  { rewrite loadPositions_cases, savePositions_insert, lookup_insert_eq.
    rewrite bool_decide_eq_false_2 by done. by rewrite Hparse. }
  split; [done|]. intros id xy Hid. by exists M.
Qed.

(** ** The position map written for a list of canvas nodes *)

Lemma positions_of_app (l : list RFNode) (r : RFNode) :
  positions_of (l ++ [r])
  = <[rf_id r := {| x := x (position r); y := y (position r) |}]> (positions_of l).
Proof. unfold positions_of. by rewrite foldl_app. Qed.

Lemma XY_eta (p : XY) : {| x := x p; y := y p |} = p.
Proof. by destruct p. Qed.

(** The map written for a list of canvas nodes holds, for every id, the
    position of the last node with that id. *)
Lemma positions_of_lookup (l : list RFNode) (id : string) :
  positions_of l !! id
  = position <$> last (filter (λ r, rf_id r = id) l).
Proof.
  induction l as [|r l IH] using rev_ind; [done|].
  rewrite positions_of_app, filter_app.
  destruct (decide (rf_id r = id)) as [Heq|Hne].
  - rewrite filter_cons_True, filter_nil by done.
    rewrite last_snoc. subst id. rewrite lookup_insert_eq. cbn. by rewrite XY_eta.
  - rewrite filter_cons_False, filter_nil, app_nil_r by done.
    by rewrite lookup_insert_ne.
Qed.

Lemma positions_of_lookup_NoDup (l : list RFNode) (r : RFNode) :
  NoDup (rf_id <$> l) → r ∈ l → positions_of l !! rf_id r = Some (position r).
Proof.
  intros Hnd Hr. rewrite positions_of_lookup.
  induction l as [|a l IH]; [by apply elem_of_nil in Hr|].
  rewrite fmap_cons in Hnd. apply NoDup_cons in Hnd as [Ha Hnd].
  apply elem_of_cons in Hr as [->|Hr].
  - rewrite filter_cons_True by done.
    assert (Hnone : filter (λ r, rf_id r = rf_id a) l = []).
    { clear IH Hnd.
      induction l as [|b l IHl]; [done|].
      rewrite fmap_cons in Ha. apply not_elem_of_cons in Ha as [Hab Ha].
      rewrite filter_cons_False by done. by apply IHl. }
    by rewrite Hnone.
  - rewrite filter_cons_False.
    + by apply IH.
    + intros Heq. apply Ha. rewrite Heq. apply list_elem_of_fmap. by exists r.
Qed.

(** The ids of the written map are the ids of the canvas nodes. *)
Lemma positions_of_dom (l : list RFNode) (id : string) :
  is_Some (positions_of l !! id) ↔ id ∈ rf_id <$> l.
Proof.
  rewrite positions_of_lookup, fmap_is_Some, list_elem_of_fmap.
  split.
  - intros [r Hr]. apply last_Some_elem_of in Hr.
    apply list_elem_of_filter in Hr as [Hid Hr]. by exists r.
  - intros (r & -> & Hr).
    assert (Hin : r ∈ filter (λ r', rf_id r' = rf_id r) l)
      by (by apply list_elem_of_filter).
    destruct (filter (λ r', rf_id r' = rf_id r) l) as [|a t] using rev_ind.
    + by apply elem_of_nil in Hin.
    + rewrite last_snoc. by eexists.
Qed.

(** A node that no later node of the list shares its id with is written
    with its own position. *)
Lemma positions_of_lookup_last (l : list RFNode) (i : nat) (r : RFNode) :
  l !! i = Some r →
  (∀ j r', (i < j)%nat → l !! j = Some r' → rf_id r' ≠ rf_id r) →
  positions_of l !! rf_id r = Some (position r).
Proof.
  intros Hi Hlater. rewrite positions_of_lookup.
  rewrite <- (take_drop_middle l i r Hi), filter_app, filter_cons_True by done.
  assert (Hnone : filter (λ r', rf_id r' = rf_id r) (drop (S i) l) = []).
  { assert (Hall : Forall (λ r', rf_id r' ≠ rf_id r) (drop (S i) l)).
    { apply Forall_forall. intros r' Hr'.
      apply list_elem_of_lookup in Hr' as [k Hk]. rewrite lookup_drop in Hk.
      apply (Hlater (S i + k)%nat r'); [lia|done]. }
    induction Hall as [|r' t Hr' _ IH]; [done|].
    by rewrite filter_cons_False. }
  rewrite Hnone.
  by rewrite last_snoc.
Qed.

(** ** Grouping the nodes into a grid *)

Lemma Math_ceil_sqrt_spec (n : Z) :
  0 < n →
  0 < Math_ceil_sqrt n
  ∧ (Math_ceil_sqrt n - 1) * (Math_ceil_sqrt n - 1) < n
  ∧ n ≤ Math_ceil_sqrt n * Math_ceil_sqrt n.
Proof.
  intros Hn. unfold Math_ceil_sqrt.
  pose proof (Z.sqrt_spec n ltac:(lia)) as [Hlo Hhi].
  pose proof (Z.sqrt_nonneg n) as Hr.
  destruct (Z.eqb_spec (Z.sqrt n * Z.sqrt n) n) as [Heq|Hneq]; nia.
Qed.

Lemma grouped_node_at_grid_cell (cols : Z) (i : nat) (node : RFNode) :
  0 < cols → grouped_node cols i node = at_grid_cell cols i node.
Proof.
  intros Hc. unfold grouped_node, at_grid_cell.
  by rewrite Z.rem_mod_nonneg by lia.
Qed.

Lemma imap_grouped_twice (cols : Z) (l : list RFNode) :
  imap (grouped_node cols) (imap (grouped_node cols) l)
  = imap (grouped_node cols) l.
Proof.
  apply list_eq. intros i. rewrite !list_lookup_imap.
  by destruct (l !! i).
Qed.

Lemma groupNodesCenter_unfold (st : AppState) (G : Z) :
  selectedGraphId st = Some G → G ≠ 0 → rfNodes st ≠ [] →
  let updatedNodes :=
    imap (grouped_node (Math_ceil_sqrt (Z.of_nat (length (rfNodes st)))))
         (rfNodes st) in
  groupNodesCenter st
  = setLocalStorage
      (<[posKey G := JSON_stringify (positions_of updatedNodes)]> (localStorage st))
      (setRfNodes updatedNodes st).
Proof.
  intros Hsel HG Hne. unfold groupNodesCenter, persistPositions. simpl.
  rewrite Hsel, truthy_Some_nonzero by done. simpl.
  destruct (rfNodes st) eqn:Hl; [done|]. reflexivity.
Qed.

(** C6.  With a graph [G] selected and [n > 0] nodes on the canvas,
    [groupNodesCenter] puts the node at index [i] at
    [(200 + (i mod cols) * 120, 200 + (i / cols) * 120)], where [cols] is
    the ceiling of the square root of [n], keeps ids and data, and in the
    same call writes the position map of the moved nodes under the key of
    [G]; grouping again changes nothing.  The written map has exactly the
    ids of the canvas nodes as its keys and gives the id of the node at
    index [i] the grid cell of [i] (of the last such [i], should two nodes
    share an id). *)
Theorem groupNodesCenter_grid (st : AppState) (G : Z) :
  selectedGraphId st = Some G → G ≠ 0 → rfNodes st ≠ [] →
  let n := Z.of_nat (length (rfNodes st)) in
  let cols := Math_ceil_sqrt n in
  let st' := groupNodesCenter st in
  (0 < cols ∧ (cols - 1) * (cols - 1) < n ∧ n ≤ cols * cols)
  ∧ rfNodes st' = imap (at_grid_cell cols) (rfNodes st)
  ∧ (∀ i node, rfNodes st !! i = Some node →
               rfNodes st' !! i = Some (at_grid_cell cols i node))
  ∧ localStorage st'
    = <[posKey G := JSON_stringify (positions_of (rfNodes st'))]> (localStorage st)
  ∧ groupNodesCenter st' = st'
  ∧ (∀ id, is_Some (positions_of (rfNodes st') !! id) ↔ id ∈ rf_id <$> rfNodes st)
  ∧ (∀ i node, rfNodes st !! i = Some node →
       (∀ j node', (i < j)%nat → rfNodes st !! j = Some node' →
                   rf_id node' ≠ rf_id node) →
       positions_of (rfNodes st') !! rf_id node
       = Some {| x := 200 + (Z.of_nat i mod cols) * 120;
                 y := 200 + (Z.of_nat i / cols) * 120 |}).
Proof.
  intros Hsel HG Hne n cols st'.
  assert (Hn : 0 < n).
  { subst n. destruct (rfNodes st); [done|]. simpl. lia. }
  pose proof (Math_ceil_sqrt_spec n Hn) as Hcols.
  assert (Hst' : st' = setLocalStorage
      (<[posKey G := JSON_stringify (positions_of (imap (grouped_node cols) (rfNodes st)))]>
         (localStorage st))
      (setRfNodes (imap (grouped_node cols) (rfNodes st)) st))
    by (by apply groupNodesCenter_unfold).
  assert (Hmap : imap (grouped_node cols) (rfNodes st)
                 = imap (at_grid_cell cols) (rfNodes st)).
  { apply imap_ext. intros i node _. apply grouped_node_at_grid_cell. apply Hcols. }
  assert (Hnodes : rfNodes st' = imap (at_grid_cell cols) (rfNodes st))
    by (by rewrite Hst').
  assert (Hlookup : ∀ i node, rfNodes st !! i = Some node →
                      rfNodes st' !! i = Some (at_grid_cell cols i node)).
  { intros i node Hi. by rewrite Hnodes, list_lookup_imap, Hi. }
  split; [exact Hcols|].
  split; [exact Hnodes|].
  split; [exact Hlookup|].
  split; [by rewrite Hst'|].
  split.
  { assert (Hne' : rfNodes st' ≠ []).
    { rewrite Hst'. simpl. intros Hnil. apply Hne.
      apply (f_equal length) in Hnil. rewrite length_imap in Hnil.
      by destruct (rfNodes st). }
    rewrite (groupNodesCenter_unfold st' G); [|by rewrite Hst'|done|done].
    rewrite Hst' at 1 2 3 4 5. simpl.
    rewrite length_imap. fold n. fold cols.
    rewrite imap_grouped_twice, insert_insert_eq.
    rewrite Hst'. reflexivity. }
  assert (Hids : rf_id <$> rfNodes st' = rf_id <$> rfNodes st).
  { rewrite Hnodes. apply list_eq. intros i.
    rewrite !list_lookup_fmap, list_lookup_imap. by destruct (rfNodes st !! i). }
  split.
  { intros id. by rewrite positions_of_dom, Hids. }
  intros i node Hi Hlater.
  apply (positions_of_lookup_last (rfNodes st') i (at_grid_cell cols i node)).
  - by apply Hlookup.
  - intros j node' Hij Hj. cbn [at_grid_cell rf_id].
    assert (Hj' : (rf_id <$> rfNodes st) !! j = Some (rf_id node'))
      by (by rewrite <- Hids, list_lookup_fmap, Hj).
    rewrite list_lookup_fmap in Hj'.
    destruct (rfNodes st !! j) as [node0|] eqn:Hj0; [|done].
    injection Hj' as <-. by apply (Hlater j).
Qed.

(** ** Search *)

Lemma toLowerCase_empty (s : string) : toLowerCase s = "" ↔ s = "".
Proof. destruct s; simpl; split; (done || discriminate). Qed.

Lemma prefix_spec (q s : string) :
  String.prefix q s = true ↔ ∃ post, s = q +:+ post.
Proof.
  revert s. induction q as [|a q IH]; intros s.
  - destruct s; simpl; split; eauto.
  - destruct s as [|b s]; simpl.
    + split; [discriminate|]. intros [post Hpost]. discriminate.
    + destruct (ascii_dec a b) as [->|Hab].
      * rewrite IH. split; intros [post Hpost]; exists post.
        -- by rewrite Hpost.
        -- by injection Hpost.
      * split; [discriminate|]. intros [post Hpost]. by injection Hpost.
Qed.

Lemma includes_unfold (s q : string) :
  includes s q
  = if String.prefix q s then true
    else match s with
         | EmptyString => false
         | String _ s' => includes s' q
         end.
Proof. by destruct s. Qed.

(** [includes] decides the substring relation. *)
Lemma includes_spec (s q : string) :
  includes s q = true ↔ ∃ pre post, s = pre +:+ q +:+ post.
Proof.
  induction s as [|c s IH]; rewrite includes_unfold.
  - destruct (String.prefix q "") eqn:Hp.
    + apply prefix_spec in Hp as [post Hpost]. split; [|done].
      intros _. by exists "", post.
    + split; [discriminate|]. intros (pre & post & Heq).
      destruct pre; simpl in Heq; [|discriminate].
      assert (String.prefix q "" = true) by (apply prefix_spec; eauto).
      congruence.
  - destruct (String.prefix q (String c s)) eqn:Hp.
    + apply prefix_spec in Hp as [post Hpost]. split; [|done].
      intros _. by exists "", post.
    + rewrite IH. split.
      * intros (pre & post & ->). by exists (String c pre), post.
      * intros (pre & post & Heq). destruct pre as [|c' pre]; simpl in Heq.
        -- assert (String.prefix q (String c s) = true)
             by (apply prefix_spec; eauto).
           congruence.
        -- injection Heq as -> ->. eauto.
Qed.

Lemma trimStart_whitespace_only (s : string) :
  whitespace_only s = true → trimStart s = "".
Proof.
  induction s as [|c s IH]; simpl; [done|].
  intros [Hc Hs]%andb_true_iff. rewrite Hc. auto.
Qed.

Lemma trim_whitespace_only (s : string) :
  whitespace_only s = true → trim s = "".
Proof. intros Hs. unfold trim. by rewrite trimStart_whitespace_only. Qed.

(** C7 (amended).  The search results are the nodes of the active graph
    whose name contains the query, with leading and trailing white space
    removed, as a case-insensitive substring, in the order of the node
    list, cut after 12 entries; a query that is empty once trimmed (in
    particular an empty or whitespace-only one) gives no result. *)
Theorem searchResults_trimmed_query (st : AppState) :
  let q := trim (searchQuery st) in
  searchResults st
  = (if bool_decide (q = "") then []
     else take 12 (filter (λ n, contains_ci q n = true) (graphNodes st)))
  ∧ (length (searchResults st) ≤ 12)%nat
  ∧ (whitespace_only (searchQuery st) = true → searchResults st = [])
  ∧ (∀ n, n ∈ searchResults st →
          n ∈ graphNodes st
          ∧ ∃ pre post, toLowerCase (name n) = pre +:+ toLowerCase q +:+ post).
Proof.
  intros q.
  assert (Heq : searchResults st
    = (if bool_decide (q = "") then []
       else take 12 (filter (λ n, contains_ci q n = true) (graphNodes st)))).
  { unfold searchResults, is_empty_str. fold q. clearbody q.
    case_bool_decide as Hlow; case_bool_decide as Hq; try done.
    - apply (proj1 (toLowerCase_empty q)) in Hlow. contradiction.
    - subst q. contradiction. }
  split; [done|]. rewrite Heq. split; [|split].
  - case_bool_decide; simpl; [lia|]. rewrite length_take. lia.
  - intros Hws. subst q. rewrite trim_whitespace_only by done. done.
  - intros n. case_bool_decide; [by intros ?%elem_of_nil|].
    intros Hn%subseteq_take. apply list_elem_of_filter in Hn as [Hci Hn].
    split; [done|]. by apply includes_spec.
Qed.

(** ** Technique drafts *)

(** C8.  [loadTechniqueDraft] always ends normally.  A 404 response gives
    the draft with empty [videoUrl] and [steps]; a successful response
    whose JSON body is read gives the draft that carries the [video_url]
    and [steps] of the body (a field that is null reads as the empty
    string). *)
Theorem loadTechniqueDraft_fetch_or_default
    (GET : Z → Settled (Response TechniqueData)) (nodeId : Z) :
  (∃ draft, loadTechniqueDraft GET nodeId = Normal draft)
  ∧ (∀ res, GET nodeId = Fulfilled res → status res = 404 →
       loadTechniqueDraft GET nodeId
       = Normal {| videoUrl := ""; steps := ""; updatedAt := Date_now |})
  ∧ (∀ res data, GET nodeId = Fulfilled res → ok res = true →
       res_json res = Fulfilled data →
       loadTechniqueDraft GET nodeId
       = Normal {| videoUrl := or_empty (video_url data);
                   steps := or_empty (steps_field data);
                   updatedAt := Date_now |})
  ∧ (∀ res v s, GET nodeId = Fulfilled res → ok res = true →
       res_json res = Fulfilled {| video_url := Some v; steps_field := Some s |} →
       loadTechniqueDraft GET nodeId
       = Normal {| videoUrl := v; steps := s; updatedAt := Date_now |}).
Proof.
  unfold loadTechniqueDraft. repeat split.
  - destruct (GET nodeId) as [res|]; simpl; [|by eexists].
    destruct (ok res); simpl; [|by eexists].
    destruct (res_json res); simpl; by eexists.
  - intros res -> Hst. simpl. unfold ok. rewrite Hst. reflexivity.
  - intros res data -> Hok Hjson. simpl. rewrite Hok, Hjson. reflexivity.
  - intros res v s -> Hok Hjson. simpl. rewrite Hok, Hjson. reflexivity.
Qed.

(** ** Optimistic edge creation *)

Lemma graphEdges_subseteq (st : AppState) : graphEdges st ⊆ edges st.
Proof.
  unfold graphEdges. destruct (negb (truthy (selectedGraphId st))).
  - apply list_subseteq_nil.
  - intros e He. by apply list_elem_of_filter in He as [_ ?].
Qed.

(** Every edge of the rebuilt canvas is the rendering of a backend edge. *)
Lemma rebuildView_edges_from_backend (st : AppState) (r : RFEdge) :
  r ∈ rfEdges (rebuildView st) →
  ∃ e, e ∈ edges st ∧ r = nextRfEdge (matchingNodeIds st) e.
Proof.
  destruct (truthy (selectedGraphId st)) eqn:Htr.
  - destruct (rebuildView_selected st Htr) as (pos & _ & ->). simpl.
    intros (e & -> & He)%list_elem_of_fmap.
    exists e. split; [by apply graphEdges_subseteq|done].
  - unfold rebuildView. rewrite Htr. simpl. by intros ?%elem_of_nil.
Qed.

Lemma failed_edge_message_not_duplicate (code : Z) (msg : string) :
  failed_edge_message code msg ≠ duplicate_edge_message.
Proof. unfold failed_edge_message, duplicate_edge_message. simpl. discriminate. Qed.

Lemma onConnect_not_ok (connection : Connection) (res : Response EdgeT)
    (reload : LoadReplies) (st : AppState) :
  truthy_str (authToken st) = true →
  truthy_str (conn_source connection) = true →
  truthy_str (conn_target connection) = true →
  ok res = false →
  onConnect connection (Fulfilled res) reload st
  = setError (Some (create_failure_message res))
             (loadAll reload (optimistic_edge connection st)).
Proof.
  intros Hauth Hsrc Htgt Hok. unfold onConnect, create_failure_message.
  rewrite Hauth, Hsrc, Htgt. cbn [negb orb await]. rewrite Hok. cbn [negb].
  by destruct (res_text res).
Qed.

(** C2 (amended).  When the create request of [onConnect] comes back with
    a status that is not a success, the handler runs the full reload on the
    state that holds the optimistic edge and then sets the banner: when the
    body of the response is read, the duplicate message exactly for status
    409 and the message with status and body otherwise; when reading the
    body rejects, the network-error message.  If the four requests of the
    reload fulfil, the collections are the reloaded ones and every edge of
    the canvas rebuilt from them renders a reloaded backend edge, so the
    optimistic edge is gone; if one of them rejects, the collections and
    the canvas with the optimistic edge stay. *)
Theorem onConnect_failure_reloads (connection : Connection)
    (res : Response EdgeT) (reload : LoadReplies) (st : AppState) :
  truthy_str (authToken st) = true →
  truthy_str (conn_source connection) = true →
  truthy_str (conn_target connection) = true →
  ok res = false →
  let st1 := optimistic_edge connection st in
  let st' := onConnect connection (Fulfilled res) reload st in
  st' = setError (Some (create_failure_message res)) (loadAll reload st1)
  ∧ (∀ msg, res_text res = Fulfilled msg →
       (error st' = Some duplicate_edge_message ↔ status res = 409)
       ∧ (status res ≠ 409 →
          error st' = Some (failed_edge_message (status res) msg)))
  ∧ (res_text res = Rejected → error st' = Some network_error_message)
  ∧ (∀ u g n e,
       users_reply reload = Fulfilled u → graphs_reply reload = Fulfilled g →
       nodes_reply reload = Fulfilled n → edges_reply reload = Fulfilled e →
       users st' = u ∧ graphs st' = g ∧ nodes st' = n ∧ edges st' = e
       ∧ ∀ r, r ∈ rfEdges (rebuildView st') →
              ∃ e0, e0 ∈ e ∧ r = nextRfEdge (matchingNodeIds st') e0)
  ∧ (any_rejected reload = true →
       users st' = users st ∧ graphs st' = graphs st
       ∧ nodes st' = nodes st ∧ edges st' = edges st
       ∧ rfEdges st' = rfEdges st1).
Proof.
  intros Hauth Hsrc Htgt Hok st1 st'.
  assert (Hst' : st' = setError (Some (create_failure_message res))
                                (loadAll reload st1))
    by (by apply onConnect_not_ok).
  assert (Hauth1 : truthy_str (authToken st1) = true) by done.
  split; [done|]. rewrite Hst'. clear Hst' st'. simpl.
  split; [|split; [|split]].
  - intros msg Hmsg. unfold create_failure_message. rewrite Hmsg.
    destruct (Z.eqb_spec (status res) 409) as [Heq|Hneq].
    + split; [done|]. intros Hne. done.
    + split; [|done]. split; [|done].
      intros Hdup. exfalso.
      apply (failed_edge_message_not_duplicate (status res) msg). congruence.
  - intros Htext. unfold create_failure_message. by rewrite Htext.
  - intros u g n e Hu Hg Hn He.
    destruct (loadAll_fulfilled reload st1 u g n e Hauth1 Hu Hg Hn He)
      as (Hu' & Hg' & Hn' & He' & _).
    repeat (split; [done|]).
    intros r Hr. apply rebuildView_edges_from_backend in Hr as (e0 & He0 & ->).
    exists e0. split; [|done]. simpl in He0. by rewrite He' in He0.
  - intros Hrej.
    rewrite (loadAll_authenticated_cases reload st1 Hauth1 Hrej). done.
Qed.

End WithPlatform.

(** * The component on concrete inputs *)

(** Query "arm" against Armbar, Kimura, Armdrag: the two names that contain
    it, in order. *)
Example search_arm : searchResults sample_state = [Armbar; Armdrag].
Proof. vm_compute. reflexivity. Qed.

(** Deleting node 2 with a server that answers 500: edges 1 -> 2 and
    2 -> 3 go as well. *)
Example delete_cascades :
  deleteNodesById (λ _, Fulfilled (response_of 500 Rejected)) [2] sample_state
  = (Normal (), setNodes [Armbar; Armdrag; Sweep] (setEdges [E3] sample_state)).
Proof. vm_compute. reflexivity. Qed.

(** A selection with id 0 does not pass the guard of the memos: nothing
    of the graph is shown. *)
Example graph_zero_shows_nothing :
  graphNodes (setSelectedGraphId (Some 0)
                (setNodes [ {| node_id := 9; name := "Guard"; graph_id := 0 |} ]
                          sample_state)) = [].
Proof. reflexivity. Qed.

Example group_three_nodes :
  position <$> rfNodes (groupNodesCenter (H := test_platform) sample_state)
  = [ {| x := 200; y := 200 |}; {| x := 320; y := 200 |}; {| x := 200; y := 320 |} ].
Proof. vm_compute. reflexivity. Qed.

(** ** Instances of the theorems *)

Lemma graph_view_is_filtered_witness :
  graphNodes sample_state = [Armbar; Kimura; Armdrag]
  ∧ graphEdges sample_state = [E1; E2].
Proof.
  destruct (graph_view_is_filtered (H := test_platform) sample_state 1
              eq_refl ltac:(discriminate)) as (Hn & He & _).
  split; [exact Hn|exact He].
Defined.

Lemma loadAll_rejection_keeps_collections_witness :
  loadAll replies_nodes_rejected sample_state
  = setError (Some "Failed to load data from backend") sample_state.
Proof.
  destruct (loadAll_rejection_keeps_collections replies_nodes_rejected
              sample_state eq_refl) as (_ & _ & _ & _ & _ & _ & Herr).
  exact (Herr eq_refl).
Defined.

Lemma deleteNodesById_prunes_witness :
  ∃ st', deleteNodesById (λ _, Fulfilled (response_of 500 Rejected)) [2] sample_state
         = (Normal (), st')
         ∧ nodes st' = [Armbar; Armdrag; Sweep] ∧ edges st' = [E3].
Proof.
  destruct (deleteNodesById_prunes_when_requests_resolve
              (λ _, Fulfilled (response_of 500 Rejected)) [2] sample_state
              ltac:(discriminate)) as [Hres _].
  destruct Hres as (st' & Hrun & Hn & He & _).
  { repeat constructor. }
  exists st'. split; [exact Hrun|]. split; [exact Hn|exact He].
Defined.

Lemma positions_round_trip_witness :
  loadPositions (H := test_platform)
    (savePositions (H := test_platform) 7 sample_positions ∅) 7
  = Normal sample_positions.
Proof.
  apply (positions_round_trip (H := test_platform) ∅ 7 sample_positions).
  - vm_compute. reflexivity.
  - vm_compute. discriminate.
Defined.

Lemma groupNodesCenter_grid_witness :
  rfNodes (groupNodesCenter (H := test_platform) sample_state)
  = imap (at_grid_cell 2) (rfNodes sample_state).
Proof.
  destruct (groupNodesCenter_grid (H := test_platform) sample_state 1
              eq_refl ltac:(discriminate) ltac:(discriminate))
    as (_ & Hgrid & _).
  exact Hgrid.
Defined.

Lemma searchResults_trimmed_query_witness :
  searchResults (with_query " ARM  " sample_state) = [Armbar; Armdrag]
  ∧ searchResults (with_query "   " sample_state) = [].
Proof.
  split.
  - destruct (searchResults_trimmed_query (with_query " ARM  " sample_state))
      as (Heq & _).
    exact Heq.
  - destruct (searchResults_trimmed_query (with_query "   " sample_state))
      as (_ & _ & Hws & _).
    exact (Hws eq_refl).
Defined.

Lemma loadTechniqueDraft_fetch_or_default_witness :
  loadTechniqueDraft (H := test_platform)
    (λ _, Fulfilled (response_of 404 (Fulfilled "Not Found"))) 5
  = Normal {| videoUrl := ""; steps := ""; updatedAt := 0 |}
  ∧ loadTechniqueDraft (H := test_platform)
      (λ _, Fulfilled {| status := 200; res_text := Rejected;
                         res_json := Fulfilled {| video_url := Some "https://x";
                                                  steps_field := Some "1) grip" |} |}) 5
    = Normal {| videoUrl := "https://x"; steps := "1) grip"; updatedAt := 0 |}.
Proof.
  split.
  - destruct (loadTechniqueDraft_fetch_or_default (H := test_platform)
                (λ _, Fulfilled (response_of 404 (Fulfilled "Not Found"))) 5)
      as (_ & Hmissing & _).
    exact (Hmissing _ eq_refl eq_refl).
  - destruct (loadTechniqueDraft_fetch_or_default (H := test_platform)
                (λ _, Fulfilled {| status := 200; res_text := Rejected;
                                   res_json := Fulfilled {| video_url := Some "https://x";
                                                            steps_field := Some "1) grip" |} |}) 5)
      as (_ & _ & _ & Hfound).
    exact (Hfound _ "https://x" "1) grip" eq_refl eq_refl eq_refl).
Defined.

Lemma loadPositions_never_throws_witness :
  loadPositions_unchecked (H := test_raw_json) ∅ 1 = Normal (JObject [])
  ∧ loadPositions_unchecked (H := test_raw_json) {[ posKey 1 := "not json" ]} 1
    = Normal (JObject [])
  ∧ loadPositions_unchecked (H := test_raw_json) {[ posKey 1 := "7" ]} 1
    = Normal (JNumber 7).
Proof.
  split; [|split].
  - destruct (@loadPositions_never_throws test_raw_json ∅ 1)
      as (_ & _ & Hnone & _).
    exact (Hnone eq_refl).
  - destruct (@loadPositions_never_throws test_raw_json
                {[ posKey 1 := "not json" ]} 1) as (_ & _ & _ & _ & Hbad & _).
    apply (Hbad "not json"); vm_compute; reflexivity.
  - destruct (@loadPositions_never_throws test_raw_json
                {[ posKey 1 := "7" ]} 1) as (_ & _ & _ & _ & _ & Hany).
    apply (Hany "7"); [vm_compute; reflexivity|discriminate|vm_compute; reflexivity].
Defined.

Lemma onConnect_failure_reloads_witness :
  let st' := onConnect (H := test_platform) sample_connection
               (Fulfilled (response_of 409 (Fulfilled "duplicate")))
               replies_ok sample_state in
  error st' = Some duplicate_edge_message
  ∧ nodes st' = [Armbar; Kimura] ∧ edges st' = [E1].
Proof.
  destruct (onConnect_failure_reloads (H := test_platform) sample_connection
              (response_of 409 (Fulfilled "duplicate")) replies_ok sample_state
              eq_refl eq_refl eq_refl eq_refl)
    as (_ & Hmsg & _ & Hreload & _).
  destruct (Hmsg "duplicate" eq_refl) as [Hdup _].
  destruct (Hreload _ _ _ _ eq_refl eq_refl eq_refl eq_refl)
    as (_ & _ & Hn & He & _).
  split; [exact (proj2 Hdup eq_refl)|]. split; [exact Hn|exact He].
Defined.

(** ** Where the statements of the specification stop short *)

(** A 409 response whose body cannot be read ends in the catch clause of
    [onConnect]: the banner is the network-error message, so the duplicate
    message does not follow from the status alone. *)
Lemma onConnect_conflict_with_unreadable_body :
  ¬ (∀ (P : Platform) connection (res : Response EdgeT) reload st,
       truthy_str (authToken st) = true →
       truthy_str (conn_source connection) = true →
       truthy_str (conn_target connection) = true →
       ok res = false →
       (error (onConnect connection (Fulfilled res) reload st)
        = Some duplicate_edge_message ↔ status res = 409)).
Proof.
  intros Hclaim.
  destruct (Hclaim test_platform sample_connection (response_of 409 Rejected)
              replies_ok sample_state eq_refl eq_refl eq_refl eq_refl)
    as [_ Hdup].
  specialize (Hdup eq_refl). vm_compute in Hdup. discriminate.
Qed.

(** A delete request that rejects makes [deleteNodesById] throw before it
    prunes: node 2 is still in the state. *)
Lemma deleteNodesById_rejected_request_keeps_node :
  ¬ (∀ (DELETE : Z → Settled (Response unit)) ids st,
       ids ≠ [] →
       ∀ n, n ∈ nodes (deleteNodesById DELETE ids st).2 → node_id n ∉ ids).
Proof.
  intros Hclaim.
  apply (Hclaim (λ _, Rejected) [2] sample_state ltac:(discriminate) Kimura).
  - vm_compute. apply list_elem_of_In. simpl. tauto.
  - apply list_elem_of_In. simpl. tauto.
Qed.

(** The query ["arm "] finds Armbar and Armdrag, although neither name
    contains the four characters of the query. *)
Lemma searchResults_untrimmed_query_differs :
  ¬ (∀ st, whitespace_only (searchQuery st) = false →
           searchResults st
           = take 12 (filter (λ n, contains_ci (searchQuery st) n = true)
                             (graphNodes st))).
Proof.
  intros Hclaim.
  specialize (Hclaim (with_query "arm " sample_state) eq_refl).
  vm_compute in Hclaim. discriminate.
Qed.

(** With the text [null] stored under the key of graph 1, [loadPositions]
    returns [null], the value [JSON.parse] gives for that text, and [null]
    is not a position map. *)
Lemma loadPositions_returns_null :
  ¬ (∀ (R : RawJSON), JSON_parse_any "null" = Normal JNull →
       ∀ ls graphId, ∃ v, loadPositions_unchecked ls graphId = Normal v
                          ∧ is_position_map v = true).
Proof.
  intros Hclaim.
  destruct (Hclaim test_raw_json eq_refl {[ posKey 1 := "null" ]} 1)
    as (v & Hv & Hmap).
  vm_compute in Hv. injection Hv as <-. discriminate.
Qed.

(** * Further properties of the component *)

(** ** Token, theme and positions in the browser store *)

Lemma posKey_inj (G G' : Z) : posKey G = posKey G' → G = G'.
Proof.
  unfold posKey, String_of. intros Heq.
  apply (inj (String.append "matlogic:positions:")) in Heq.
  by apply (inj pretty) in Heq.
Qed.

Lemma posKey_not_TOKEN_KEY (G : Z) : posKey G ≠ TOKEN_KEY.
Proof. unfold posKey, TOKEN_KEY. simpl. discriminate. Qed.

Lemma posKey_not_THEME_KEY (G : Z) : posKey G ≠ THEME_KEY.
Proof. unfold posKey, THEME_KEY. simpl. discriminate. Qed.

Lemma setToken_lookup (token : option string) (ls : Storage) (k : string) :
  setToken token ls !! k
  = if decide (k = TOKEN_KEY)
    then (if truthy_str token then token else None)
    else ls !! k.
Proof.
  unfold setToken, localStorage_setItem, localStorage_removeItem.
  destruct (truthy_str token) eqn:Htok; case_decide as Hk; subst.
  - rewrite lookup_insert_eq. by destruct token.
  - by rewrite lookup_insert_ne.
  - by rewrite lookup_delete_eq.
  - by rewrite lookup_delete_ne.
Qed.

Lemma loadPositions_lookup_ext `{Platform} (ls ls' : Storage) (G : Z) :
  ls' !! posKey G = ls !! posKey G → loadPositions ls' G = loadPositions ls G.
Proof. intros Heq. by rewrite !loadPositions_cases, Heq. Qed.

(** X1.  Reading the token back after [setToken]: a non-empty token is
    returned as stored; [null] and the empty string both remove the stored
    token, so the read gives [null].  No other key of the store changes. *)
Theorem token_round_trip (token : option string) (ls : Storage) :
  getToken (setToken token ls) = (if truthy_str token then token else None)
  ∧ ∀ k, k ≠ TOKEN_KEY → setToken token ls !! k = ls !! k.
Proof.
  split.
  - unfold getToken, localStorage_getItem. rewrite setToken_lookup.
    by rewrite decide_True.
  - intros k Hk. rewrite setToken_lookup. by rewrite decide_False.
Qed.

(** X2.  The position maps of different graphs, the token and the theme
    live under different keys: saving positions for [G], storing a token or
    storing the theme leaves what [loadPositions] returns for another graph
    [G'] as it was, and saving positions never touches the token or the
    theme. *)
Theorem positions_isolated `{Platform} (ls : Storage) (G G' : Z) (M : PosMap)
    (token : option string) (theme : Theme) :
  G ≠ G' →
  loadPositions (savePositions G M ls) G' = loadPositions ls G'
  ∧ loadPositions (setToken token ls) G' = loadPositions ls G'
  ∧ loadPositions (storeTheme theme ls) G' = loadPositions ls G'
  ∧ getToken (savePositions G M ls) = getToken ls
  ∧ initialTheme (savePositions G M ls) = initialTheme ls.
Proof.
  intros HG. repeat split.
  - apply loadPositions_lookup_ext. rewrite savePositions_insert.
    apply lookup_insert_ne. intros Heq. by apply posKey_inj in Heq.
  - apply loadPositions_lookup_ext. rewrite setToken_lookup.
    rewrite decide_False; [done|apply posKey_not_TOKEN_KEY].
  - apply loadPositions_lookup_ext. unfold storeTheme.
    apply lookup_insert_ne. intros Heq. symmetry in Heq.
    by apply posKey_not_THEME_KEY in Heq.
  - unfold getToken, localStorage_getItem. rewrite savePositions_insert.
    by rewrite lookup_insert_ne by apply posKey_not_TOKEN_KEY.
  - unfold initialTheme. rewrite savePositions_insert.
    by rewrite lookup_insert_ne by apply posKey_not_THEME_KEY.
Qed.

(** X3.  The theme survives a reload: the initial theme read from a store
    in which the theme effect wrote [t] is [t], also after a later token
    write; every stored text other than "dark" (or none) starts the light
    theme; and toggling twice gives the theme back. *)
Theorem theme_round_trip (t : Theme) (token : option string) (ls : Storage) :
  initialTheme (storeTheme t ls) = t
  ∧ initialTheme (setToken token (storeTheme t ls)) = t
  ∧ (ls !! THEME_KEY ≠ Some "dark" → initialTheme ls = light)
  ∧ toggleTheme (toggleTheme t) = t ∧ toggleTheme t ≠ t.
Proof.
  assert (H1 : initialTheme (storeTheme t ls) = t).
  { unfold initialTheme, storeTheme. rewrite lookup_insert_eq. by destruct t. }
  repeat split; try done.
  - unfold initialTheme in *. rewrite setToken_lookup.
    rewrite decide_False by discriminate. exact H1.
  - intros Hne. unfold initialTheme. by rewrite bool_decide_eq_false_2.
  - by destruct t.
  - by destruct t.
Qed.

(** ** Deleting with the delete key *)

Lemma filter_all {A} (P : A → Prop) `{!∀ x, Decision (P x)} (l : list A) :
  (∀ v, v ∈ l → P v) → filter P l = l.
Proof.
  induction l as [|a l IH]; intros Hall; [done|].
  rewrite filter_cons_True by (apply Hall; left).
  f_equal. apply IH. intros v Hv. apply Hall. by right.
Qed.

Lemma setNodes_setEdges_same (st : AppState) :
  setNodes (nodes st) (setEdges (edges st) st) = st.
Proof. by destruct st. Qed.

Lemma setEdges_same (st : AppState) : setEdges (edges st) st = st.
Proof. by destruct st. Qed.

Lemma deleteEdgesById_resolved (DELETE : Z → Settled (Response unit))
    (ids : list Z) (st : AppState) :
  Forall (λ id, is_rejected (DELETE id) = false) ids →
  deleteEdgesById DELETE ids st
  = (Normal (), setEdges (filter (λ e, edge_id e ∉ ids) (edges st)) st).
Proof.
  intros Hall. unfold deleteEdgesById. destruct ids as [|id ids].
  - simpl. rewrite filter_all; [by rewrite setEdges_same|].
    intros e _. apply not_elem_of_nil.
  - destruct (Promise_all_fulfilled (DELETE <$> id :: ids)) as [vs Hvs];
      [by apply Forall_fmap|].
    cbn [length Nat.eqb]. rewrite Hvs. cbn [await]. do 2 f_equal.
    apply list_filter_iff. intros e. unfold Array_includes.
    by rewrite negb_true_iff, bool_decide_eq_false.
Qed.

Lemma deleteNodesById_resolved (DELETE : Z → Settled (Response unit))
    (ids : list Z) (st : AppState) :
  Forall (λ id, is_rejected (DELETE id) = false) ids →
  deleteNodesById DELETE ids st
  = (Normal (),
     setNodes (filter (λ n, node_id n ∉ ids) (nodes st))
       (setEdges (filter (λ e, (from_node_id e ∉ ids) ∧ (to_node_id e ∉ ids))
                         (edges st)) st)).
Proof.
  intros Hall. unfold deleteNodesById. destruct ids as [|id ids].
  - simpl. rewrite !filter_all; [by rewrite setNodes_setEdges_same| |].
    + intros e _. split; apply not_elem_of_nil.
    + intros n _. apply not_elem_of_nil.
  - destruct (Promise_all_fulfilled (DELETE <$> id :: ids)) as [vs Hvs];
      [by apply Forall_fmap|].
    cbn [length Nat.eqb]. rewrite Hvs. cbn [await]. f_equal.
    assert (Hn : ∀ l : list NodeT, filter (λ n, negb (Array_includes (id :: ids) (node_id n)) = true) l
                      = filter (λ n, node_id n ∉ id :: ids) l).
    { intros l. apply list_filter_iff. intros n. unfold Array_includes.
      by rewrite negb_true_iff, bool_decide_eq_false. }
    assert (He : ∀ l : list EdgeT,
      filter (λ e, (negb (Array_includes (id :: ids) (from_node_id e))
                    && negb (Array_includes (id :: ids) (to_node_id e))) = true) l
      = filter (λ e, (from_node_id e ∉ id :: ids) ∧ (to_node_id e ∉ id :: ids)) l).
    { intros l. apply list_filter_iff. intros e. unfold Array_includes.
      by rewrite andb_true_iff, !negb_true_iff, !bool_decide_eq_false. }
    by rewrite Hn, He.
Qed.

Lemma deleteEdgesById_rejected (DELETE : Z → Settled (Response unit))
    (ids : list Z) (st : AppState) :
  Exists (λ id, is_rejected (DELETE id) = true) ids →
  deleteEdgesById DELETE ids st = (Throw, st).
Proof.
  intros Hex. unfold deleteEdgesById.
  destruct ids as [|id ids]; [by apply Exists_nil in Hex|].
  cbn [length Nat.eqb].
  by rewrite (Promise_all_rejected (DELETE <$> id :: ids)) by (by apply Exists_fmap).
Qed.

Lemma deleteNodesById_rejected (DELETE : Z → Settled (Response unit))
    (ids : list Z) (st : AppState) :
  Exists (λ id, is_rejected (DELETE id) = true) ids →
  deleteNodesById DELETE ids st = (Throw, st).
Proof.
  intros Hex. unfold deleteNodesById.
  destruct ids as [|id ids]; [by apply Exists_nil in Hex|].
  cbn [length Nat.eqb].
  by rewrite (Promise_all_rejected (DELETE <$> id :: ids)) by (by apply Exists_fmap).
Qed.

(** X4.  [deleteEdgesById]: when every delete request resolves, exactly the
    edges whose id is in the list are removed, in place, and nothing else
    of the state changes (an empty list changes nothing); when a request
    rejects, the call throws and the state is the one it started from. *)
Theorem deleteEdgesById_prunes (DELETE : Z → Settled (Response unit))
    (ids : list Z) (st : AppState) :
  (Forall (λ id, is_rejected (DELETE id) = false) ids →
   deleteEdgesById DELETE ids st
   = (Normal (), setEdges (filter (λ e, edge_id e ∉ ids) (edges st)) st))
  ∧ (Exists (λ id, is_rejected (DELETE id) = true) ids →
     deleteEdgesById DELETE ids st = (Throw, st))
  ∧ deleteEdgesById DELETE [] st = (Normal (), st).
Proof.
  split; [apply deleteEdgesById_resolved|].
  split; [apply deleteEdgesById_rejected|done].
Qed.

Lemma onKeyDown_guards (DELETE_edge DELETE_node : Z → Settled (Response unit))
    (e : KeyboardEvent) :
  is_delete_key_press e = true →
  isTypingInEditableElement (ev_target e) = false
  ∧ negb (bool_decide (ev_key e = "Backspace"))
    && negb (bool_decide (ev_key e = "Delete")) = false.
Proof.
  unfold is_delete_key_press. intros [Hty Hkey]%andb_true_iff.
  apply negb_true_iff in Hty. split; [done|].
  destruct (bool_decide (ev_key e = "Backspace")),
    (bool_decide (ev_key e = "Delete")); done.
Qed.

Lemma AppState_eq (a b : AppState) :
  users a = users b → graphs a = graphs b → nodes a = nodes b →
  edges a = edges b → selectedUserId a = selectedUserId b →
  selectedGraphId a = selectedGraphId b → error a = error b →
  authToken a = authToken b → rfNodes a = rfNodes b → rfEdges a = rfEdges b →
  searchQuery a = searchQuery b → localStorage a = localStorage b → a = b.
Proof. destruct a, b; simpl; intros; by subst. Qed.

(** X5.  A press of Delete or Backspace outside a text control, when every
    delete request resolves: the nodes of the node selection are gone, the
    edges left are exactly those that are neither in the edge selection nor
    attached to a node of the node selection, both selections are empty, and
    the rest of the state (error banner, canvas, store) is untouched. *)
Theorem onKeyDown_deletes_selection
    (DELETE_edge DELETE_node : Z → Settled (Response unit))
    (e : KeyboardEvent) (st : AppState) (sel : Selection) :
  is_delete_key_press e = true →
  Forall (λ id, is_rejected (DELETE_edge id) = false) (selectedEdgeIds sel) →
  Forall (λ id, is_rejected (DELETE_node id) = false) (selectedNodeIds sel) →
  onKeyDown DELETE_edge DELETE_node e st sel
  = (setNodes (filter (λ n, node_id n ∉ selectedNodeIds sel) (nodes st))
       (setEdges
          (filter (λ ed, (edge_id ed ∉ selectedEdgeIds sel)
                         ∧ (from_node_id ed ∉ selectedNodeIds sel)
                         ∧ (to_node_id ed ∉ selectedNodeIds sel))
                  (edges st)) st),
     {| selectedNodeIds := []; selectedEdgeIds := [] |}).
Proof.
  intros Hkey HE HN.
  destruct (onKeyDown_guards DELETE_edge DELETE_node e Hkey) as [Hty Hk].
  unfold onKeyDown. rewrite Hty, Hk.
  rewrite (deleteEdgesById_resolved DELETE_edge _ st HE).
  destruct sel as [selN selE]. cbn [selectedNodeIds selectedEdgeIds] in *.
  destruct selE as [|ie selE]; cbn [length Nat.ltb Nat.leb].
  - rewrite (deleteNodesById_resolved DELETE_node selN st HN).
    destruct selN as [|n0 selN]; cbn [length Nat.ltb Nat.leb].
    + f_equal. apply AppState_eq; try done; simpl; symmetry; apply filter_all.
      * intros; apply not_elem_of_nil.
      * intros; repeat split; apply not_elem_of_nil.
    + f_equal. apply AppState_eq; try done; simpl.
      apply list_filter_iff. intros ed. split; [|tauto].
      intros; repeat split; try tauto. apply not_elem_of_nil.
  - rewrite (deleteNodesById_resolved DELETE_node selN _ HN).
    destruct selN as [|n0 selN]; cbn [length Nat.ltb Nat.leb].
    + f_equal. apply AppState_eq; try done; simpl.
      * symmetry; apply filter_all. intros; apply not_elem_of_nil.
      * apply list_filter_iff. intros ed. split; [|tauto].
        intros; repeat split; try tauto; apply not_elem_of_nil.
    + f_equal. apply AppState_eq; try done; simpl.
      rewrite list_filter_filter. apply list_filter_iff. tauto.
Qed.
(** X6.  A press of Delete or Backspace outside a text control, when a
    delete request rejects.  If it is one of the edge requests, nothing is
    pruned and the selection stays; if the edge requests resolve and a node
    request rejects, the selected edges are gone and the edge selection is
    empty, but every node, the edges attached to the selected nodes and the
    node selection stay.  In both cases the banner reads
    ["Failed to delete selection"]. *)
Theorem onKeyDown_rejected_request
    (DELETE_edge DELETE_node : Z → Settled (Response unit))
    (e : KeyboardEvent) (st : AppState) (sel : Selection) :
  is_delete_key_press e = true →
  (Exists (λ id, is_rejected (DELETE_edge id) = true) (selectedEdgeIds sel) →
   onKeyDown DELETE_edge DELETE_node e st sel
   = (setError (Some "Failed to delete selection") st, sel))
  ∧ (Forall (λ id, is_rejected (DELETE_edge id) = false) (selectedEdgeIds sel) →
     Exists (λ id, is_rejected (DELETE_node id) = true) (selectedNodeIds sel) →
     onKeyDown DELETE_edge DELETE_node e st sel
     = (setError (Some "Failed to delete selection")
          (setEdges (filter (λ ed, edge_id ed ∉ selectedEdgeIds sel) (edges st)) st),
        {| selectedNodeIds := selectedNodeIds sel; selectedEdgeIds := [] |})).
Proof.
  intros Hkey.
  destruct (onKeyDown_guards DELETE_edge DELETE_node e Hkey) as [Hty Hk].
  unfold onKeyDown. rewrite Hty, Hk. split.
  - intros Hex. rewrite (deleteEdgesById_rejected DELETE_edge _ st Hex).
    destruct (selectedEdgeIds sel); [by apply Exists_nil in Hex|done].
  - intros HE Hex. rewrite (deleteEdgesById_resolved DELETE_edge _ st HE).
    destruct sel as [selN selE].
    cbn [selectedNodeIds selectedEdgeIds] in *.
    destruct selN as [|n0 selN]; [by apply Exists_nil in Hex|].
    destruct selE as [|ie selE]; cbn [length Nat.ltb Nat.leb].
    + rewrite (deleteNodesById_rejected DELETE_node _ st Hex).
      f_equal. apply AppState_eq; try done; simpl.
      symmetry; apply filter_all. intros; apply not_elem_of_nil.
    + by rewrite (deleteNodesById_rejected DELETE_node _ _ Hex).
Qed.

(** X7.  The listener does nothing while the event target is an input, a
    textarea, a select or an editable element, and for every key other
    than Delete and Backspace: state and selection are returned as they
    are, whatever is selected and whatever the delete requests would do. *)
Theorem onKeyDown_ignored
    (DELETE_edge DELETE_node : Z → Settled (Response unit))
    (e : KeyboardEvent) (st : AppState) (sel : Selection) :
  ((∃ el, ev_target e = Some el
          ∧ (tagName el = "INPUT" ∨ tagName el = "TEXTAREA"
             ∨ tagName el = "SELECT" ∨ isContentEditable el = true))
   ∨ (ev_key e ≠ "Backspace" ∧ ev_key e ≠ "Delete")) →
  onKeyDown DELETE_edge DELETE_node e st sel = (st, sel).
Proof.
  intros [(el & Hel & Htag)|[Hb Hd]]; unfold onKeyDown.
  - assert (Hty : isTypingInEditableElement (ev_target e) = true).
    { rewrite Hel. unfold isTypingInEditableElement.
      destruct Htag as [Ht|[Ht|[Ht|Ht]]]; rewrite Ht; cbn; try done.
      by rewrite orb_true_r. }
    by rewrite Hty.
  - destruct (isTypingInEditableElement (ev_target e)); [done|].
    by rewrite !bool_decide_eq_false_2.
Qed.

(** ** Saving a technique draft *)

(** X8.  [saveTechniqueDraft] never throws.  It always sends the update
    (PUT) first; it sends a create (POST) for the same node with the same
    two fields exactly when the update resolved with status 404, and no
    third request in any case.  An update that rejects or fails with
    another status is dropped without a retry. *)
Theorem saveTechniqueDraft_update_or_create
    (server : TechniqueRequest → Settled (Response unit))
    (nodeId : Z) (draft : TechniqueDraft) :
  let update := {| req_method := PUT; req_node := nodeId;
                   req_video_url := videoUrl draft; req_steps := steps draft |} in
  let create := {| req_method := POST; req_node := nodeId;
                   req_video_url := videoUrl draft; req_steps := steps draft |} in
  let result := saveTechniqueDraft server nodeId draft in
  result.1 = Normal ()
  ∧ (result.2 = [update] ∨ result.2 = [update; create])
  ∧ (result.2 = [update; create]
     ↔ ∃ res, server update = Fulfilled res ∧ status res = 404).
Proof.
  intros update create result. subst result. unfold saveTechniqueDraft.
  fold update. fold create.
  destruct (server update) as [res|] eqn:Hput; simpl.
  - destruct (ok res) eqn:Hok; simpl.
    + repeat split; eauto. * discriminate.
      * intros (res' & [= <-] & Hst). unfold ok in Hok. rewrite Hst in Hok. done.
    + destruct (Z.eqb_spec (status res) 404) as [Hst|Hst].
      * destruct (server create); simpl; repeat split; eauto.
      * repeat split; eauto. -- discriminate.
        -- intros (res' & [= <-] & Hst'). done.
  - repeat split; eauto. + discriminate. + intros (res' & Hres & _). discriminate.
Qed.

(** ** Search highlighting on the rebuilt canvas *)

Lemma size_zero_empty (X : gset Z) : (size X =? 0)%nat = bool_decide (X = ∅).
Proof.
  destruct (Nat.eqb_spec (size X) 0) as [H0|H0]; symmetry.
  - apply bool_decide_eq_true. by apply size_empty_inv, leibniz_equiv in H0.
  - apply bool_decide_eq_false. intros ->. by rewrite size_empty in H0.
Qed.

Lemma matchingNodeIds_whitespace (st : AppState) :
  whitespace_only (searchQuery st) = true → matchingNodeIds st = ∅.
Proof.
  intros Hws. unfold matchingNodeIds.
  by rewrite trim_whitespace_only.
Qed.

Lemma elem_of_matchingNodeIds (st : AppState) (i : Z) :
  i ∈ matchingNodeIds st ↔
  trim (searchQuery st) ≠ ""
  ∧ ∃ n, n ∈ graphNodes st ∧ node_id n = i
         ∧ contains_ci (trim (searchQuery st)) n = true.
Proof.
  unfold matchingNodeIds, is_empty_str.
  case_bool_decide as Hq.
  - apply (proj1 (toLowerCase_empty _)) in Hq. split; [set_solver|].
    intros [Hne _]. done.
  - assert (Hne : trim (searchQuery st) ≠ "").
    { intros Heq. apply Hq. by rewrite Heq. }
    rewrite elem_of_list_to_set, list_elem_of_fmap. split.
    + intros (n & -> & Hn). apply list_elem_of_filter in Hn as [Hm Hn].
      split; [done|]. by exists n.
    + intros (_ & n & Hn & <- & Hm). exists n. split; [done|].
      apply list_elem_of_filter. by split.
Qed.

(** X9.  On the canvas rebuilt for a selected graph, the node at index
    [i] renders the graph node at index [i] under the id [String(n.id)]
    and its name; it is highlighted exactly when its id is the id of a
    graph node whose name contains the trimmed, non-empty query
    (case-insensitively), and dimmed exactly when some node matches and it
    does not.  No node is both, and a query that matches nothing dims
    nothing. *)
Theorem rebuildView_highlights_matches `{Platform} (st : AppState)
    (i : nat) (n : NodeT) :
  truthy (selectedGraphId st) = true →
  graphNodes st !! i = Some n →
  ∃ r, rfNodes (rebuildView st) !! i = Some r
    ∧ rf_id r = String_of (node_id n)
    ∧ data_label (data r) = name n
    ∧ (highlighted (data r) = true ↔
       (trim (searchQuery st) ≠ ""
        ∧ ∃ m, m ∈ graphNodes st ∧ node_id m = node_id n
               ∧ contains_ci (trim (searchQuery st)) m = true))
    ∧ (dimmed (data r) = true ↔
       (matchingNodeIds st ≠ ∅ ∧ node_id n ∉ matchingNodeIds st))
    ∧ (dimmed (data r) && highlighted (data r) = false).
Proof.
  intros Hsel Hn.
  destruct (rebuildView_selected st Hsel) as (pos & _ & ->).
  cbn [rfNodes setRfEdges setRfNodes].
  rewrite list_lookup_imap, Hn. cbn [fmap option_fmap option_map].
  eexists. split; [reflexivity|]. unfold nextRfNode. cbn [rf_id data data_label highlighted dimmed].
  rewrite size_zero_empty.
  split; [done|]. split; [done|].
  rewrite <- elem_of_matchingNodeIds.
  destruct (bool_decide (matchingNodeIds st = ∅)) eqn:Hemp.
  - apply bool_decide_eq_true in Hemp. rewrite Hemp. cbn.
    split; [|split; [|done]].
    + split; [done|]. intros ?%not_elem_of_empty. done.
    + split; [done|]. intros [Hne _]. done.
  - apply bool_decide_eq_false in Hemp. cbn.
    destruct (bool_decide (node_id n ∈ matchingNodeIds st)) eqn:Hin.
    + apply bool_decide_eq_true in Hin. cbn. split; [done|]. split; [|done].
      split; [done|]. intros [_ Hout]. done.
    + apply bool_decide_eq_false in Hin. cbn. split; [|split; [|done]].
      * split; [done|]. intros Hin'. done.
      * split; [done|]. done.
Qed.

(** X10.  On the canvas rebuilt for a selected graph, the edge at index
    [i] renders the graph edge at index [i]: ids of edge and endpoints as
    strings, the stroke of its type, its label or the empty text.  Its
    opacity is 0.15 exactly when some node matches the query and one of
    its endpoints is not a match, and 1 otherwise. *)
Theorem rebuildView_dims_edges `{Platform} (st : AppState)
    (i : nat) (e : EdgeT) :
  truthy (selectedGraphId st) = true →
  graphEdges st !! i = Some e →
  ∃ r, rfEdges (rebuildView st) !! i = Some r
    ∧ rfe_id r = String_of (edge_id e)
    ∧ source r = String_of (from_node_id e)
    ∧ target r = String_of (to_node_id e)
    ∧ stroke (style r) = edgeStroke (edge_type e)
    ∧ rfe_label r = default "" (label e)
    ∧ (opacity (style r) = Some (15 # 100)%Q ∨ opacity (style r) = Some 1%Q)
    ∧ (opacity (style r) = Some (15 # 100)%Q ↔
       (matchingNodeIds st ≠ ∅
        ∧ (from_node_id e ∉ matchingNodeIds st
           ∨ to_node_id e ∉ matchingNodeIds st))).
Proof.
  intros Hsel He.
  destruct (rebuildView_selected st Hsel) as (pos & _ & ->).
  cbn [rfEdges setRfEdges setRfNodes].
  rewrite list_lookup_fmap, He. cbn [fmap option_fmap option_map].
  eexists. split; [reflexivity|]. unfold nextRfEdge.
  cbn [rfe_id source target style stroke rfe_label opacity].
  rewrite size_zero_empty.
  repeat (split; [done|]).
  destruct (bool_decide (matchingNodeIds st = ∅)) eqn:Hemp.
  - apply bool_decide_eq_true in Hemp. cbn. split; [by right|].
    split; [discriminate|]. intros [Hne _]. done.
  - apply bool_decide_eq_false in Hemp. cbn.
    destruct (bool_decide (from_node_id e ∈ matchingNodeIds st)) eqn:Hf;
      destruct (bool_decide (to_node_id e ∈ matchingNodeIds st)) eqn:Ht; cbn;
      try apply bool_decide_eq_true in Hf; try apply bool_decide_eq_false in Hf;
      try apply bool_decide_eq_true in Ht; try apply bool_decide_eq_false in Ht.
    + split; [by right|]. split; [discriminate|]. intros [_ [?|?]]; done.
    + split; [by left|]. split; [|done]. intros _. split; [done|by right].
    + split; [by left|]. split; [|done]. intros _. split; [done|by left].
    + split; [by left|]. split; [|done]. intros _. split; [done|by left].
Qed.

(** X11.  When no node matches - the query is empty or white space, or
    no name of the graph contains it - the rebuilt canvas dims and
    highlights no node and draws every edge at opacity 1. *)
Theorem rebuildView_without_matches `{Platform} (st : AppState) :
  (whitespace_only (searchQuery st) = true → matchingNodeIds st = ∅)
  ∧ (matchingNodeIds st = ∅ →
     (∀ r, r ∈ rfNodes (rebuildView st) →
           dimmed (data r) = false ∧ highlighted (data r) = false)
     ∧ (∀ r, r ∈ rfEdges (rebuildView st) → opacity (style r) = Some 1%Q)).
Proof.
  split; [apply matchingNodeIds_whitespace|].
  intros Hemp.
  destruct (truthy (selectedGraphId st)) eqn:Hsel.
  - destruct (rebuildView_selected st Hsel) as (pos & _ & ->).
    cbn [rfNodes rfEdges setRfEdges setRfNodes]. rewrite Hemp. split.
    + intros r (i & n & -> & _)%elem_of_lookup_imap.
      unfold nextRfNode. cbn. done.
    + intros r (e & -> & _)%list_elem_of_fmap.
      unfold nextRfEdge. cbn. done.
  - unfold rebuildView. rewrite Hsel. cbn. split; intros r Hr; by apply elem_of_nil in Hr.
Qed.

(** X12.  Every node listed in the search results is highlighted, and
    not dimmed, on the rebuilt canvas; the results are the first (at most
    12) of the matching graph nodes, so a result's id is always a matching
    id. *)
Theorem searchResults_are_highlighted `{Platform} (st : AppState)
    (i : nat) (n : NodeT) :
  n ∈ searchResults st →
  graphNodes st !! i = Some n →
  node_id n ∈ matchingNodeIds st
  ∧ ∃ r, rfNodes (rebuildView st) !! i = Some r
         ∧ rf_id r = String_of (node_id n)
         ∧ highlighted (data r) = true ∧ dimmed (data r) = false.
Proof.
  intros Hres Hn.
  assert (Hin : node_id n ∈ matchingNodeIds st).
  { unfold searchResults in Hres. unfold matchingNodeIds.
    destruct (is_empty_str _); [by apply elem_of_nil in Hres|].
    apply subseteq_take in Hres.
    apply elem_of_list_to_set, list_elem_of_fmap. by exists n. }
  split; [done|].
  assert (Hsel : truthy (selectedGraphId st) = true).
  { unfold graphNodes in Hn. by destruct (truthy (selectedGraphId st)). }
  destruct (rebuildView_selected st Hsel) as (pos & _ & ->).
  cbn [rfNodes setRfEdges setRfNodes].
  rewrite list_lookup_imap, Hn. cbn [fmap option_fmap option_map].
  eexists. split; [reflexivity|]. unfold nextRfNode.
  cbn [rf_id data highlighted dimmed]. rewrite size_zero_empty.
  split; [done|].
  rewrite (bool_decide_eq_false_2 (matchingNodeIds st = ∅)) by set_solver.
  rewrite (bool_decide_eq_true_2 (node_id n ∈ matchingNodeIds st)) by done.
  done.
Qed.

(** ** Positions on the rebuilt canvas *)

(** X13.  On the rebuilt canvas a node with a stored position sits at that
    position; a node without one is placed by two random draws, and lands
    in the square from (80, 80) to below (500, 500) whenever the draws of
    [Math.random() * 420] lie in [0, 420). *)
Theorem rebuildView_positions `{Platform} (st : AppState) (pos : PosMap)
    (i : nat) (n : NodeT) :
  truthy (selectedGraphId st) = true →
  loadPositions (localStorage st) (default 0 (selectedGraphId st)) = Normal pos →
  graphNodes st !! i = Some n →
  ∃ r, rfNodes (rebuildView st) !! i = Some r
    ∧ (∀ xy, pos !! String_of (node_id n) = Some xy → position r = xy)
    ∧ (pos !! String_of (node_id n) = None →
       (∀ k, 0 ≤ Math_random_times 420 k < 420) →
       80 ≤ x (position r) < 500 ∧ 80 ≤ y (position r) < 500).
Proof.
  intros Hsel Hpos Hn.
  destruct (rebuildView_selected st Hsel) as (pos' & Hpos' & ->).
  rewrite Hpos in Hpos'. injection Hpos' as <-.
  cbn [rfNodes setRfEdges setRfNodes].
  rewrite list_lookup_imap, Hn. cbn [fmap option_fmap option_map].
  eexists. split; [reflexivity|]. unfold nextRfNode. cbn [position].
  split.
  - intros xy ->. done.
  - intros -> Hrand. unfold default. cbn [from_option id x y].
    pose proof (Hrand (2 * i)%nat). pose proof (Hrand (2 * i + 1)%nat). lia.
Qed.

Lemma persistPositions_selected `{Platform} (l : list RFNode) (st : AppState) (G : Z) :
  selectedGraphId st = Some G → G ≠ 0 →
  persistPositions l st
  = setLocalStorage
      (<[posKey G := JSON_stringify (positions_of l)]> (localStorage st)) st.
Proof.
  intros Hsel HG. unfold persistPositions.
  by rewrite Hsel, truthy_Some_nonzero.
Qed.

(** X14.  What [persistPositions] writes is what the next rebuild shows:
    with a graph selected and a position map whose JSON text parses back,
    the canvas rebuilt after [persistPositions l] puts every graph node
    whose id (as a string) is in the map at the position stored for it; if
    the ids of [l] are pairwise distinct, that is the position of the node
    of [l] with that id.  No random placement happens for these nodes. *)
Theorem positions_survive_rebuild `{Platform} (st : AppState) (G : Z)
    (l : list RFNode) :
  selectedGraphId st = Some G → G ≠ 0 →
  JSON_parse (JSON_stringify (positions_of l)) = Normal (positions_of l) →
  JSON_stringify (positions_of l) ≠ "" →
  let st' := rebuildView (persistPositions l st) in
  (∀ i n xy, graphNodes st !! i = Some n →
     positions_of l !! String_of (node_id n) = Some xy →
     ∃ r, rfNodes st' !! i = Some r ∧ position r = xy)
  ∧ (NoDup (rf_id <$> l) →
     ∀ i n r0, graphNodes st !! i = Some n → r0 ∈ l →
       rf_id r0 = String_of (node_id n) →
       ∃ r, rfNodes st' !! i = Some r ∧ position r = position r0).
Proof.
  intros Hsel HG Hparse Hne st'.
  assert (Hmain : ∀ i n xy, graphNodes st !! i = Some n →
     positions_of l !! String_of (node_id n) = Some xy →
     ∃ r, rfNodes st' !! i = Some r ∧ position r = xy).
  { intros i n xy Hn Hxy. subst st'.
    rewrite (persistPositions_selected l st G Hsel HG).
    set (st1 := setLocalStorage _ st).
    assert (Htr : truthy (selectedGraphId st1) = true)
      by (cbn; rewrite Hsel; by apply truthy_Some_nonzero).
    destruct (rebuildView_selected st1 Htr) as (pos & Hpos & ->).
    assert (pos = positions_of l) as ->.
    { cbn in Hpos. rewrite Hsel in Hpos. cbn in Hpos.
      rewrite loadPositions_cases, lookup_insert_eq in Hpos.
      rewrite bool_decide_eq_false_2, Hparse in Hpos by done. congruence. }
    cbn [rfNodes setRfEdges setRfNodes].
    change (graphNodes st1) with (graphNodes st).
    rewrite list_lookup_imap, Hn. cbn [fmap option_fmap option_map].
    eexists. split; [reflexivity|]. unfold nextRfNode. cbn [position].
    by rewrite Hxy. }
  split; [exact Hmain|].
  intros Hnd i n r0 Hn Hr0 Hid. apply (Hmain i n); [done|].
  rewrite <- Hid. by apply positions_of_lookup_NoDup.
Qed.

(** ** The grid of [groupNodesCenter] *)

Lemma groupNodesCenter_nodes `{Platform} (st : AppState) (G : Z) :
  selectedGraphId st = Some G → G ≠ 0 → rfNodes st ≠ [] →
  let cols := Math_ceil_sqrt (Z.of_nat (length (rfNodes st))) in
  0 < cols
  ∧ Z.of_nat (length (rfNodes st)) ≤ cols * cols
  ∧ rfNodes (groupNodesCenter st) = imap (at_grid_cell cols) (rfNodes st).
Proof.
  intros Hsel HG Hne cols.
  assert (Hn : 0 < Z.of_nat (length (rfNodes st))).
  { destruct (rfNodes st); [done|]. cbn [length]. lia. }
  destruct (Math_ceil_sqrt_spec _ Hn) as (Hpos & _ & Hle).
  split; [done|]. split; [done|].
  rewrite (groupNodesCenter_unfold st G Hsel HG Hne). cbn [rfNodes setLocalStorage setRfNodes].
  apply imap_ext. intros i node _. by apply grouped_node_at_grid_cell.
Qed.

(** X15.  After [groupNodesCenter] no two nodes share a spot: nodes at
    different indices of the canvas list get different positions. *)
Theorem groupNodesCenter_no_overlap `{Platform} (st : AppState) (G : Z)
    (i j : nat) (ri rj : RFNode) :
  selectedGraphId st = Some G → G ≠ 0 →
  rfNodes (groupNodesCenter st) !! i = Some ri →
  rfNodes (groupNodesCenter st) !! j = Some rj →
  i ≠ j → position ri ≠ position rj.
Proof.
  intros Hsel HG Hi Hj Hij.
  destruct (decide (rfNodes st = [])) as [Hnil|Hne].
  { unfold groupNodesCenter in Hi. rewrite Hnil in Hi. cbn in Hi.
    rewrite orb_true_r in Hi. by rewrite Hnil in Hi. }
  destruct (groupNodesCenter_nodes st G Hsel HG Hne) as (Hc & _ & Heq).
  rewrite Heq in Hi, Hj. rewrite list_lookup_imap in Hi, Hj.
  destruct (rfNodes st !! i) as [a|]; [|done].
  destruct (rfNodes st !! j) as [b|]; [|done].
  cbn in Hi, Hj. injection Hi as <-. injection Hj as <-.
  unfold at_grid_cell. cbn [position]. intros [= Hx Hy].
  set (c := Math_ceil_sqrt _) in *.
  assert (Z.of_nat i = Z.of_nat j); [|lia].
  rewrite (Z.div_mod (Z.of_nat i) c), (Z.div_mod (Z.of_nat j) c) by lia.
  nia.
Qed.

(** X16.  After [groupNodesCenter] every node lies in the square grid of
    [cols] by [cols] cells that starts at (200, 200) with spacing 120: both
    coordinates are between 200 and 200 + (cols - 1) * 120, and multiples
    of the spacing away from the origin. *)
Theorem groupNodesCenter_within_square `{Platform} (st : AppState) (G : Z)
    (i : nat) (r : RFNode) :
  selectedGraphId st = Some G → G ≠ 0 →
  rfNodes (groupNodesCenter st) !! i = Some r →
  let cols := Math_ceil_sqrt (Z.of_nat (length (rfNodes st))) in
  200 ≤ x (position r) ≤ 200 + (cols - 1) * 120
  ∧ 200 ≤ y (position r) ≤ 200 + (cols - 1) * 120
  ∧ (x (position r) - 200) mod 120 = 0
  ∧ (y (position r) - 200) mod 120 = 0.
Proof.
  intros Hsel HG Hi cols.
  destruct (decide (rfNodes st = [])) as [Hnil|Hne].
  { unfold groupNodesCenter in Hi. rewrite Hnil in Hi. cbn in Hi.
    rewrite orb_true_r in Hi. by rewrite Hnil in Hi. }
  destruct (groupNodesCenter_nodes st G Hsel HG Hne) as (Hc & Hle & Heq).
  fold cols in Hc, Hle, Heq.
  rewrite Heq, list_lookup_imap in Hi.
  destruct (rfNodes st !! i) as [a|] eqn:Ha; [|done].
  apply lookup_lt_Some in Ha.
  cbn in Hi. injection Hi as <-. unfold at_grid_cell. cbn [position x y].
  pose proof (Z.mod_pos_bound (Z.of_nat i) cols Hc) as Hmod.
  assert (Hdiv : 0 ≤ Z.of_nat i / cols < cols).
  { split; [apply Z.div_pos; lia|]. apply Z.div_lt_upper_bound; nia. }
  repeat split; try lia.
  - replace (200 + Z.of_nat i mod cols * 120 - 200) with (Z.of_nat i mod cols * 120) by lia.
    apply Z.mod_mul. lia.
  - replace (200 + Z.of_nat i / cols * 120 - 200) with (Z.of_nat i / cols * 120) by lia.
    apply Z.mod_mul. lia.
Qed.

(** ** The other paths of [onConnect] *)

(** X17.  When the create request succeeds and its body is read, the
    reload replies play no part: the created edge is appended to [edges],
    the other collections stay, the banner is clear, and the canvas ends
    with the edge rendered under the id the server gave; no other edge
    between the source and target of the connection is left on the canvas,
    so the provisional edge is replaced, never doubled. *)
Theorem onConnect_success `{Platform} (connection : Connection)
    (res : Response EdgeT) (created : EdgeT) (reload : LoadReplies)
    (st : AppState) :
  truthy_str (authToken st) = true →
  truthy_str (conn_source connection) = true →
  truthy_str (conn_target connection) = true →
  ok res = true → res_json res = Fulfilled created →
  let st' := onConnect connection (Fulfilled res) reload st in
  edges st' = (edges st ++ [created])%list
  ∧ users st' = users st ∧ graphs st' = graphs st ∧ nodes st' = nodes st
  ∧ error st' = None
  ∧ last (rfEdges st') = Some (created_rf_edge created)
  ∧ (∀ r, r ∈ rfEdges st' →
          r = created_rf_edge created
          ∨ (r ∈ rfEdges (optimistic_edge connection st)
             ∧ ¬ (Some (source r) = conn_source connection
                  ∧ Some (target r) = conn_target connection)))
  ∧ (∀ r, r ∈ rfEdges (optimistic_edge connection st) →
          ¬ (Some (source r) = conn_source connection
             ∧ Some (target r) = conn_target connection) →
          r ∈ rfEdges st').
Proof.
  intros Hauth Hsrc Htgt Hok Hjson st'. subst st'. unfold onConnect.
  rewrite Hauth, Hsrc, Htgt. cbn [negb orb await]. rewrite Hok, Hjson.
  cbn [negb await]. cbn [edges rfEdges users graphs nodes error setRfEdges setEdges].
  repeat (split; [done|]).
  split; [by rewrite last_snoc|]. split.
  - intros r [Hr|Hr]%elem_of_app.
    + right. by apply list_elem_of_filter in Hr as [? ?].
    + left. by apply list_elem_of_singleton in Hr.
  - intros r Hr Hpair. apply elem_of_app. left.
    apply list_elem_of_filter. by split.
Qed.

(** X18.  When the create request itself rejects, or succeeds with a body
    that cannot be read as JSON, [onConnect] ends in its catch clause: the
    full reload runs on the state that holds the optimistic edge and the
    banner reads ["Failed to create edge (network error)"]; [edges] gains
    no edge unless the reload delivers it. *)
Theorem onConnect_network_error `{Platform} (connection : Connection)
    (create_reply : Settled (Response EdgeT)) (reload : LoadReplies)
    (st : AppState) :
  truthy_str (authToken st) = true →
  truthy_str (conn_source connection) = true →
  truthy_str (conn_target connection) = true →
  (create_reply = Rejected
   ∨ ∃ res, create_reply = Fulfilled res ∧ ok res = true
            ∧ res_json res = Rejected) →
  let st' := onConnect connection create_reply reload st in
  st' = setError (Some network_error_message)
          (loadAll reload (optimistic_edge connection st))
  ∧ (any_rejected reload = true →
     edges st' = edges st
     ∧ rfEdges st' = rfEdges (optimistic_edge connection st)).
Proof.
  intros Hauth Hsrc Htgt Hcase st'.
  assert (Hst' : st' = setError (Some network_error_message)
                         (loadAll reload (optimistic_edge connection st))).
  { subst st'. unfold onConnect. rewrite Hauth, Hsrc, Htgt. cbn [negb orb].
    destruct Hcase as [->|(res & -> & Hok & Hjson)]; cbn [await]; [done|].
    rewrite Hok, Hjson. done. }
  split; [done|]. intros Hrej. rewrite Hst'.
  rewrite (loadAll_authenticated_cases reload (optimistic_edge connection st) Hauth Hrej). done.
Qed.

(** ** A successful bulk load *)

(** X19.  When the four requests of [loadAll] fulfil (and a token is
    present), the four collections are replaced by the replies and the
    banner is cleared; a graph (or user) selection that is already set is
    never changed - not even when the selected id is missing from the
    reply - and with no selection the first graph (user) of the reply is
    selected, or none if the reply is empty.  Canvas, query and store are
    untouched.  Without a token [loadAll] only clears the banner. *)
Theorem loadAll_success (replies : LoadReplies) (st : AppState)
    (u : list User) (g : list Graph) (n : list NodeT) (e : list EdgeT) :
  users_reply replies = Fulfilled u → graphs_reply replies = Fulfilled g →
  nodes_reply replies = Fulfilled n → edges_reply replies = Fulfilled e →
  let st' := loadAll replies st in
  (truthy_str (authToken st) = true →
   users st' = u ∧ graphs st' = g ∧ nodes st' = n ∧ edges st' = e
   ∧ error st' = None
   ∧ selectedGraphId st'
     = match selectedGraphId st with
       | Some sel => Some sel
       | None => graph_ident <$> head g
       end
   ∧ selectedUserId st'
     = match selectedUserId st with
       | Some sel => Some sel
       | None => user_id <$> head u
       end
   ∧ rfNodes st' = rfNodes st ∧ rfEdges st' = rfEdges st
   ∧ searchQuery st' = searchQuery st ∧ localStorage st' = localStorage st
   ∧ authToken st' = authToken st)
  ∧ (truthy_str (authToken st) = false → st' = setError None st).
Proof.
  intros Hu Hg Hn He st'. subst st'. unfold loadAll. split.
  - intros ->. rewrite Hu, Hg, Hn, He. cbn [negb].
    destruct u as [|u0 u'], g as [|g0 g'];
      destruct (selectedUserId st) as [su|] eqn:Hsu,
        (selectedGraphId st) as [sg|] eqn:Hsg;
      cbn; by repeat split.
  - intros ->. reflexivity.
Qed.

(** ** Creating nodes and graphs *)

Lemma createNode_not_ready `{Platform} (newNodeName : string)
    (POST_reply : Settled (Response NodeT)) (st : AppState) :
  createNode_ready newNodeName st = false →
  ∃ message,
    createNode newNodeName POST_reply st
    = {| cr_state := setError (Some message) st; cr_input := newNodeName;
         cr_request := None |}.
Proof.
  unfold createNode_ready, createNode. intros Hready.
  destruct (truthy (selectedGraphId st)); cbn [negb]; [|by eexists].
  destruct (truthy_str (authToken st)); cbn [negb]; [|by eexists].
  destruct (is_empty_str (trim newNodeName)); [by eexists|done].
Qed.

Lemma createNode_ready_run `{Platform} (newNodeName : string)
    (POST_reply : Settled (Response NodeT)) (st : AppState) :
  createNode_ready newNodeName st = true →
  let request := Some {| nr_name := trim newNodeName;
                         nr_graph_id := default 0 (selectedGraphId st) |} in
  match reply_delivers POST_reply with
  | Some created =>
      let next := (rfNodes st ++ [created_rf_node created])%list in
      createNode newNodeName POST_reply st
      = {| cr_state :=
             setRfNodes next
               (persistPositions next
                  (setNodes (nodes st ++ [created])%list (setError None st)));
           cr_input := ""; cr_request := request |}
  | None =>
      ∃ message,
        createNode newNodeName POST_reply st
        = {| cr_state := setError (Some message) st; cr_input := newNodeName;
             cr_request := request |}
  end.
Proof.
  unfold createNode_ready, createNode, reply_delivers.
  intros [[Hsel Hauth]%andb_true_iff Hname%negb_true_iff]%andb_true_iff.
  cbn zeta. rewrite Hsel, Hauth, Hname. cbn [negb].
  destruct POST_reply as [res|]; cbn [await]; [|by eexists].
  destruct (ok res); cbn [negb].
  - destruct (res_json res); cbn [await]; [done|by eexists].
  - destruct (res_text res); cbn [await]; by eexists.
Qed.

(** X20.  [createNode] adds a node only on acknowledgement.  If a guard
    fails (no graph selected, no token, name empty after trimming) no
    request is sent; otherwise one request carries the trimmed name and the
    selected graph.  Unless the reply is a success whose body is read, the
    node list, the canvas and the store stay as they were, the input keeps
    its text and a message is shown.  On success the created node is
    appended to the node list and, as a canvas node under its id as a
    string, to the canvas; the input is emptied and the banner cleared. *)
Theorem createNode_outcome `{Platform} (newNodeName : string)
    (POST_reply : Settled (Response NodeT)) (st : AppState) :
  let r := createNode newNodeName POST_reply st in
  cr_request r
  = (if createNode_ready newNodeName st
     then Some {| nr_name := trim newNodeName;
                  nr_graph_id := default 0 (selectedGraphId st) |}
     else None)
  ∧ (createNode_ready newNodeName st = false ∨ reply_delivers POST_reply = None →
     nodes (cr_state r) = nodes st ∧ rfNodes (cr_state r) = rfNodes st
     ∧ localStorage (cr_state r) = localStorage st
     ∧ cr_input r = newNodeName ∧ is_Some (error (cr_state r)))
  ∧ (∀ created, createNode_ready newNodeName st = true →
       reply_delivers POST_reply = Some created →
       nodes (cr_state r) = (nodes st ++ [created])%list
       ∧ rfNodes (cr_state r) = (rfNodes st ++ [created_rf_node created])%list
       ∧ rf_id (created_rf_node created) = String_of (node_id created)
       ∧ cr_input r = "" ∧ error (cr_state r) = None).
Proof.
  intros r. subst r.
  destruct (createNode_ready newNodeName st) eqn:Hready.
  - pose proof (createNode_ready_run newNodeName POST_reply st Hready) as Hrun.
    cbn zeta in Hrun.
    destruct (reply_delivers POST_reply) as [created|] eqn:Hreply.
    + rewrite Hrun. cbn [cr_request cr_state cr_input].
      split; [done|]. split; [by intros [?|?]|].
      intros created' _ [= <-].
      unfold persistPositions.
      destruct (negb (truthy (selectedGraphId _))); by repeat split.
    + destruct Hrun as [message ->]. cbn [cr_request cr_state cr_input].
      split; [done|]. split; [|by intros ? ? ?].
      intros _. repeat split; try done; by eexists.
  - destruct (createNode_not_ready newNodeName POST_reply st Hready) as [message ->].
    cbn [cr_request cr_state cr_input].
    split; [done|]. split; [|by intros ? ?].
    intros _. repeat split; try done; by eexists.
Qed.

Lemma rebuildView_stored_position `{Platform} (st : AppState) (pos : PosMap)
    (i : nat) (n : NodeT) (xy : XY) :
  truthy (selectedGraphId st) = true →
  loadPositions (localStorage st) (default 0 (selectedGraphId st)) = Normal pos →
  graphNodes st !! i = Some n →
  pos !! String_of (node_id n) = Some xy →
  ∃ r, rfNodes (rebuildView st) !! i = Some r ∧ position r = xy
       ∧ rf_id r = String_of (node_id n).
Proof.
  intros Hsel Hpos Hn Hxy.
  destruct (rebuildView_selected st Hsel) as (pos' & Hpos' & ->).
  rewrite Hpos in Hpos'. injection Hpos' as <-.
  cbn [rfNodes setRfEdges setRfNodes].
  rewrite list_lookup_imap, Hn. cbn [fmap option_fmap option_map].
  eexists. split; [reflexivity|]. unfold nextRfNode. cbn [position rf_id].
  by rewrite Hxy.
Qed.

(** X21.  A created node keeps the place it was first given: when
    [createNode] succeeds (and the JSON text of the written position map
    parses back), the canvas rebuilt from the resulting state shows every
    graph node with the id of the created node at the position
    [createNode] drew for it, not at a new random one. *)
Theorem createNode_position_kept `{Platform} (newNodeName : string)
    (POST_reply : Settled (Response NodeT)) (st : AppState)
    (created : NodeT) (i : nat) (n : NodeT) :
  createNode_ready newNodeName st = true →
  reply_delivers POST_reply = Some created →
  let st' := cr_state (createNode newNodeName POST_reply st) in
  let M := positions_of (rfNodes st') in
  JSON_parse (JSON_stringify M) = Normal M → JSON_stringify M ≠ "" →
  graphNodes st' !! i = Some n → node_id n = node_id created →
  ∃ r, rfNodes (rebuildView st') !! i = Some r
       ∧ position r = position (created_rf_node created)
       ∧ rf_id r = String_of (node_id created).
Proof.
  intros Hready Hreply st' M Hparse Hne Hn Hid.
  pose proof (createNode_ready_run newNodeName POST_reply st Hready) as Hrun.
  cbn zeta in Hrun. rewrite Hreply in Hrun.
  assert (Hsel : truthy (selectedGraphId st) = true).
  { unfold createNode_ready in Hready.
    by apply andb_true_iff in Hready as [[? _]%andb_true_iff _]. }
  destruct (selectedGraphId st) as [G|] eqn:HG; [|done].
  assert (HG0 : G ≠ 0).
  { intros ->. done. }
  set (next := (rfNodes st ++ [created_rf_node created])%list) in *.
  assert (Hst' : st' = setRfNodes next
     (setLocalStorage (<[posKey G := JSON_stringify (positions_of next)]> (localStorage st))
        (setNodes (nodes st ++ [created])%list (setError None st)))).
  { subst st'. rewrite Hrun. cbn [cr_state].
    by rewrite (persistPositions_selected next
                  (setNodes (nodes st ++ [created])%list (setError None st)) G). }
  assert (HM : M = positions_of next) by (subst M; by rewrite Hst').
  rewrite HM in Hparse, Hne.
  rewrite <- Hid.
  apply (rebuildView_stored_position st' (positions_of next)).
  - rewrite Hst'. cbn. rewrite HG. by apply truthy_Some_nonzero.
  - rewrite Hst'. cbn. rewrite HG. cbn.
    rewrite loadPositions_cases, lookup_insert_eq.
    by rewrite bool_decide_eq_false_2, Hparse.
  - done.
  - rewrite Hid. subst next. rewrite positions_of_app.
    cbn [rf_id created_rf_node]. rewrite lookup_insert_eq. by rewrite XY_eta.
Qed.

Lemma createGraph_not_ready (me : option User) (newGraphTitle : string)
    (POST_reply : Settled (Response Graph)) (st : AppState) :
  createGraph_ready me newGraphTitle st = false →
  ∃ message,
    createGraph me newGraphTitle POST_reply st
    = {| cr_state := setError (Some message) st; cr_input := newGraphTitle;
         cr_request := None |}.
Proof.
  unfold createGraph_ready, createGraph. intros Hready.
  destruct (is_empty_str (trim newGraphTitle)); [by eexists|].
  destruct (truthy (graph_owner me st)); cbn [negb]; [|by eexists].
  destruct (truthy_str (authToken st)); cbn [negb]; [done|by eexists].
Qed.

Lemma createGraph_ready_run (me : option User) (newGraphTitle : string)
    (POST_reply : Settled (Response Graph)) (st : AppState) :
  createGraph_ready me newGraphTitle st = true →
  match reply_delivers POST_reply with
  | Some created =>
      createGraph me newGraphTitle POST_reply st
      = {| cr_state :=
             setSelectedGraphId (Some (graph_ident created))
               (setGraphs (graphs st ++ [created])%list (setError None st));
           cr_input := "";
           cr_request := Some {| gr_title := trim newGraphTitle;
                                 gr_user_id := default 0 (graph_owner me st) |} |}
  | None =>
      ∃ message,
        createGraph me newGraphTitle POST_reply st
        = {| cr_state := setError (Some message) st; cr_input := newGraphTitle;
             cr_request := Some {| gr_title := trim newGraphTitle;
                                   gr_user_id := default 0 (graph_owner me st) |} |}
  end.
Proof.
  unfold createGraph_ready, createGraph, reply_delivers.
  intros [[Htitle%negb_true_iff Howner]%andb_true_iff Hauth]%andb_true_iff.
  cbn zeta. rewrite Htitle, Howner, Hauth. cbn [negb].
  destruct POST_reply as [res|]; cbn [await]; [|by eexists].
  destruct (ok res); cbn [negb].
  - destruct (res_json res); cbn [await]; [done|by eexists].
  - destruct (res_text res); cbn [await]; by eexists.
Qed.

(** X22.  [createGraph] sends a request only when the trimmed title is not
    empty, an owner id is found and a token is present; the request carries
    the trimmed title and the owner, which is the logged-in user if there
    is one, else the selected user, else the first loaded user.  Unless the
    reply is a success whose body is read, the graph list and the selection
    stay, the input keeps its text and a message is shown.  On success the
    created graph is appended and becomes the selected graph, the input is
    emptied and the banner cleared. *)
Theorem createGraph_outcome (me : option User) (newGraphTitle : string)
    (POST_reply : Settled (Response Graph)) (st : AppState) :
  let r := createGraph me newGraphTitle POST_reply st in
  cr_request r
  = (if createGraph_ready me newGraphTitle st
     then Some {| gr_title := trim newGraphTitle;
                  gr_user_id := default 0 (graph_owner me st) |}
     else None)
  ∧ (∀ u, me = Some u → graph_owner me st = Some (user_id u))
  ∧ (me = None → ∀ sel, selectedUserId st = Some sel → graph_owner me st = Some sel)
  ∧ (createGraph_ready me newGraphTitle st = false
     ∨ reply_delivers POST_reply = None →
     graphs (cr_state r) = graphs st
     ∧ selectedGraphId (cr_state r) = selectedGraphId st
     ∧ cr_input r = newGraphTitle ∧ is_Some (error (cr_state r)))
  ∧ (∀ created, createGraph_ready me newGraphTitle st = true →
       reply_delivers POST_reply = Some created →
       graphs (cr_state r) = (graphs st ++ [created])%list
       ∧ selectedGraphId (cr_state r) = Some (graph_ident created)
       ∧ nodes (cr_state r) = nodes st ∧ edges (cr_state r) = edges st
       ∧ cr_input r = "" ∧ error (cr_state r) = None).
Proof.
  intros r. subst r.
  split; [|split; [by intros u ->|split; [by intros -> sel Hsel; unfold graph_owner; rewrite Hsel|]]].
  - destruct (createGraph_ready me newGraphTitle st) eqn:Hready.
    + pose proof (createGraph_ready_run me newGraphTitle POST_reply st Hready) as Hrun.
      destruct (reply_delivers POST_reply); [by rewrite Hrun|].
      by destruct Hrun as [message ->].
    + by destruct (createGraph_not_ready me newGraphTitle POST_reply st Hready)
        as [message ->].
  - destruct (createGraph_ready me newGraphTitle st) eqn:Hready.
    + pose proof (createGraph_ready_run me newGraphTitle POST_reply st Hready) as Hrun.
      destruct (reply_delivers POST_reply) as [created|].
      * rewrite Hrun. split; [by intros [?|?]|]. by intros created' _ [= <-].
      * destruct Hrun as [message ->]. split; [|by intros ? ? ?].
        intros _. repeat split; try done; by eexists.
    + destruct (createGraph_not_ready me newGraphTitle POST_reply st Hready)
        as [message ->].
      split; [|by intros ? ?]. intros _. repeat split; try done; by eexists.
Qed.

(** ** Switching graphs, token check and logout *)

(** X23.  Choosing a graph [G] (not 0) in the select shows that graph with
    a fresh search: the query is emptied, so there are no search results
    and no matches, and the canvas rebuilt afterwards shows the nodes of
    [G] under their ids with no node dimmed or highlighted. *)
Theorem onGraphChange_fresh_view `{Platform} (G : Z) (st : AppState) :
  G ≠ 0 →
  let st1 := onGraphChange G st in
  graphNodes st1 = filter (λ n, graph_id n = G) (nodes st)
  ∧ searchResults st1 = [] ∧ matchingNodeIds st1 = ∅
  ∧ rf_id <$> rfNodes (rebuildView st1)
    = (λ n, String_of (node_id n)) <$> filter (λ n, graph_id n = G) (nodes st)
  ∧ (∀ r, r ∈ rfNodes (rebuildView st1) →
          dimmed (data r) = false ∧ highlighted (data r) = false)
  ∧ (∀ r, r ∈ rfEdges (rebuildView st1) → opacity (style r) = Some 1%Q).
Proof.
  intros HG st1.
  assert (Htr : truthy (selectedGraphId st1) = true) by (by apply truthy_Some_nonzero).
  assert (Hn : graphNodes st1 = filter (λ n, graph_id n = G) (nodes st)).
  { unfold graphNodes. rewrite Htr. cbn [negb]. subst st1. cbn.
    apply list_filter_iff. intros n. split; [by intros [= ->]|by intros ->]. }
  assert (Hm : matchingNodeIds st1 = ∅) by done.
  split; [done|]. split; [done|]. split; [done|].
  destruct (rebuildView_selected st1 Htr) as (pos & _ & ->).
  cbn [rfNodes rfEdges setRfEdges setRfNodes]. rewrite Hm, Hn.
  split; [|split].
  - rewrite fmap_imap. apply list_eq. intros i.
    rewrite list_lookup_imap, list_lookup_fmap.
    by destruct (filter _ (nodes st) !! i).
  - by intros r (i & n & -> & _)%elem_of_lookup_imap.
  - by intros r (e & -> & _)%list_elem_of_fmap.
Qed.

Lemma loadPositions_after_token_removed `{Platform} (ls : Storage) (G : Z) :
  loadPositions (setToken None ls) G = loadPositions ls G.
Proof.
  apply loadPositions_lookup_ext. rewrite setToken_lookup.
  rewrite decide_False; [done|apply posKey_not_TOKEN_KEY].
Qed.

(** X24.  The who-am-I check of a stored token.  A response that is not a
    success removes the token from the state and from the store and sets
    [me] to [null]; a success whose body is read sets [me] to that user and
    changes nothing else; a request that rejects (or a success with an
    unreadable body) changes nothing at all, so token and [me] stay.
    Without a token no reply is consulted and [me] is [null].  In every
    case the stored positions of all graphs are kept. *)
Theorem checkToken_outcome `{Platform} (reply : Settled (Response User))
    (st : AppState) (me : option User) :
  let r := checkToken reply st me in
  (truthy_str (authToken st) = false → r = (st, None))
  ∧ (truthy_str (authToken st) = true →
     (∀ res, reply = Fulfilled res → ok res = false →
        r.2 = None ∧ authToken r.1 = None ∧ getToken (localStorage r.1) = None
        ∧ nodes r.1 = nodes st ∧ edges r.1 = edges st)
     ∧ (∀ res u, reply = Fulfilled res → ok res = true →
          res_json res = Fulfilled u → r = (st, Some u))
     ∧ (reply = Rejected
        ∨ (∃ res, reply = Fulfilled res ∧ ok res = true ∧ res_json res = Rejected) →
        r = (st, me)))
  ∧ ∀ G, loadPositions (localStorage r.1) G = loadPositions (localStorage st) G.
Proof.
  intros r. subst r. unfold checkToken.
  destruct (truthy_str (authToken st)) eqn:Hauth; cbn [negb].
  - split; [done|]. split.
    + intros _. split; [|split].
      * intros res -> Hok. unfold fetchMe. rewrite Hok. cbn [negb fst snd].
        repeat split; try done.
        cbn [localStorage setAuthToken setLocalStorage].
        unfold getToken, localStorage_getItem. rewrite setToken_lookup.
        by rewrite decide_True.
      * intros res u -> Hok Hjson. unfold fetchMe. by rewrite Hok, Hjson.
      * intros [->|(res & -> & Hok & Hjson)]; unfold fetchMe; [done|].
        by rewrite Hok, Hjson.
    + intros G. destruct (fetchMe reply) as [[u|]|]; try done.
      cbn [fst localStorage setAuthToken setLocalStorage].
      apply loadPositions_after_token_removed.
  - split; [done|]. split; [done|]. done.
Qed.

(** X25.  After [logout] the token is gone from the state and from the
    store, [me] is [null], the four collections are empty and nothing is
    selected; so no node, edge or search result is derived, the rebuilt
    canvas is empty and a reload only clears the banner.  The stored
    positions of every graph and the stored theme survive the logout. *)
Theorem logout_clears_session `{Platform} (st : AppState) (replies : LoadReplies) :
  let st' := (logout st).1 in
  (logout st).2 = None
  ∧ authToken st' = None ∧ getToken (localStorage st') = None
  ∧ users st' = [] ∧ graphs st' = [] ∧ nodes st' = [] ∧ edges st' = []
  ∧ selectedUserId st' = None ∧ selectedGraphId st' = None
  ∧ graphNodes st' = [] ∧ graphEdges st' = [] ∧ searchResults st' = []
  ∧ rfNodes (rebuildView st') = [] ∧ rfEdges (rebuildView st') = []
  ∧ loadAll replies st' = setError None st'
  ∧ (∀ G, loadPositions (localStorage st') G = loadPositions (localStorage st) G)
  ∧ initialTheme (localStorage st') = initialTheme (localStorage st).
Proof.
  intros st'.
  assert (Hls : localStorage st' = setToken None (localStorage st)) by done.
  repeat split; try done.
  - rewrite Hls. unfold getToken, localStorage_getItem.
    rewrite setToken_lookup. by rewrite decide_True.
  - unfold searchResults. subst st'. cbn. by destruct (is_empty_str _).
  - intros G. rewrite Hls. apply loadPositions_after_token_removed.
  - rewrite Hls. unfold initialTheme. rewrite setToken_lookup.
    by rewrite decide_False.
Qed.

(** ** Debounced saving of positions *)

Lemma debounced_cleared (tm : SaveTimers) :
  debounced tm →
  (if truthy (saveTimer tm)
   then delete (default 0 (saveTimer tm)) (pending tm)
   else pending tm) = ∅.
Proof.
  intros Hdeb. apply map_empty. intros h.
  destruct (truthy (saveTimer tm)) eqn:Htr.
  - destruct (decide (h = default 0 (saveTimer tm))) as [->|Hne].
    + apply lookup_delete_eq.
    + rewrite lookup_delete_ne by done.
      destruct (pending tm !! h) as [c|] eqn:Hh; [|done].
      destruct (Hdeb h) as [_ Hs]; [by eexists|]. rewrite Hs in Hne. done.
  - destruct (pending tm !! h) as [c|] eqn:Hh; [|done].
    destruct (Hdeb h) as [H0 Hs]; [by eexists|]. rewrite Hs in Htr. cbn in Htr.
    apply negb_false_iff, Z.eqb_eq in Htr. done.
Qed.

Lemma onNodesChange_debounced `{Canvas} (changes : list NodeChange)
    (handle : Z) (st : AppState) (tm : SaveTimers) :
  debounced tm →
  onNodesChange changes handle st tm
  = (setRfNodes (applyNodeChanges changes (rfNodes st)) st,
     {| saveTimer := Some handle;
        pending := {[ handle := selectedGraphId st ]} |}).
Proof.
  intros Hdeb. unfold onNodesChange. by rewrite debounced_cleared.
Qed.

Lemma debounced_singleton (handle : Z) (captured : option Z) :
  handle ≠ 0 →
  debounced {| saveTimer := Some handle; pending := {[ handle := captured ]} |}.
Proof.
  intros Hh h [c Hc]. cbn in *.
  apply lookup_singleton_Some in Hc as [<- _]. done.
Qed.

Lemma timeout_fires_debounced `{Platform} (handle : Z)
    (st : AppState) (tm : SaveTimers) :
  debounced tm → debounced (timeout_fires handle st tm).2.
Proof.
  intros Hdeb. unfold timeout_fires.
  destruct (pending tm !! handle) as [captured|] eqn:Hh; [|done].
  cbn. intros h [c Hc]. cbn in *.
  destruct (decide (handle = h)) as [->|Hne].
  - by rewrite lookup_delete_eq in Hc.
  - rewrite lookup_delete_ne in Hc by done. apply Hdeb. by eexists.
Qed.

Lemma canvas_step_debounced `{Platform} `{Canvas}
    (s : AppState * SaveTimers) (event : CanvasEvent) :
  debounced s.2 →
  (∀ changes handle, event = NodesChanged changes handle → handle ≠ 0) →
  debounced (canvas_step s event).2.
Proof.
  intros Hdeb Hh. destruct event as [changes handle|handle]; cbn [canvas_step].
  - rewrite onNodesChange_debounced by done. cbn.
    apply debounced_singleton. by eapply Hh.
  - by apply timeout_fires_debounced.
Qed.

Lemma debounced_size (tm : SaveTimers) :
  debounced tm → (size (pending tm) ≤ 1)%nat.
Proof.
  intros Hdeb. destruct tm as [cur pend]. cbn in *.
  induction pend as [|h c pend Hnone _] using map_ind; [rewrite map_size_empty; lia|].
  rewrite map_size_insert_None by done.
  assert (pend = ∅) as ->; [|rewrite map_size_empty; lia].
  apply map_empty. intros h'.
  destruct (pend !! h') as [c'|] eqn:Hh'; [|done].
  destruct (Hdeb h) as [_ Hcur]; [cbn; rewrite lookup_insert_eq; by eexists|].
  destruct (Hdeb h') as [_ Hcur'].
  { cbn. destruct (decide (h = h')) as [->|Hne]; [congruence|].
    rewrite lookup_insert_ne by done. by eexists. }
  cbn in *. assert (h = h') as -> by congruence. congruence.
Qed.

(** X26.  The debounce keeps at most one save pending.  Starting with at
    most the timeout of [saveTimer] armed, after any sequence of node
    changes and timeout firings - the handles handed out by [setTimeout]
    being non-zero - again at most that one timeout is armed: every change
    cancels the pending save before arming the next. *)
Theorem debounce_one_timer `{Platform} `{Canvas} (events : list CanvasEvent)
    (st : AppState) (tm : SaveTimers) :
  debounced tm → handles_nonzero events →
  debounced (canvas_run events (st, tm)).2
  ∧ (size (pending (canvas_run events (st, tm)).2) ≤ 1)%nat.
Proof.
  intros Hdeb Hnz.
  assert (Hinv : debounced (canvas_run events (st, tm)).2).
  { unfold canvas_run. induction events as [|ev events IH] using rev_ind; [done|].
    rewrite foldl_app. cbn [foldl]. apply canvas_step_debounced.
    - apply IH. intros c h Hin. apply (Hnz c h). apply elem_of_app. by left.
    - intros c h ->. apply (Hnz c h). apply elem_of_app. right. by left. }
  split; [done|]. by apply debounced_size.
Qed.

Lemma canvas_run_burst `{Platform} `{Canvas}
    (burst : list (list NodeChange * Z)) (st : AppState) (tm : SaveTimers) :
  debounced tm → (∀ c, c ∈ burst → c.2 ≠ 0) →
  let s := canvas_run ((λ c, NodesChanged c.1 c.2) <$> burst) (st, tm) in
  s.1 = setRfNodes (after_changes burst (rfNodes st)) st ∧ debounced s.2
  ∧ (∀ changes handle l, burst = (l ++ [(changes, handle)])%list →
       s.2 = {| saveTimer := Some handle;
                pending := {[ handle := selectedGraphId st ]} |}).
Proof.
  intros Hdeb Hnz. unfold canvas_run, after_changes.
  induction burst as [|[c h] burst IH] using rev_ind.
  - cbn. split; [by destruct st|]. split; [done|].
    intros ? ? l Hl. by destruct l.
  - destruct IH as (Hst & Hd & _).
    { intros c' Hc'. apply Hnz. apply elem_of_app. by left. }
    rewrite fmap_app, !foldl_app. cbn [fmap list_fmap foldl canvas_step fst snd].
    rewrite onNodesChange_debounced by done.
    cbn [fst snd]. rewrite Hst. cbn [rfNodes setRfNodes selectedGraphId].
    split; [done|]. split.
    + apply debounced_singleton. apply (Hnz (c, h)). apply elem_of_app. right. by left.
    + intros changes handle l Hl. apply app_inj_tail in Hl as [_ [= -> ->]]. done.
Qed.

(** X27.  A burst of node changes collapses into one write.  After one or
    more changes with no timeout firing in between (a graph [G] being
    selected), the canvas holds the nodes with all changes applied in
    order, nothing has been written yet, and exactly the timeout of the
    last change is armed; when it fires it writes the position map of
    those final nodes under the key of [G] and leaves no timeout armed.
    The timeouts of the earlier changes of the burst do nothing if they
    fire.  The written map has exactly the ids of the final nodes as its
    keys and gives each id the position of the final node that carries it
    (of the last one, should two nodes share an id). *)
Theorem debounce_collapses_burst `{Platform} `{Canvas}
    (burst : list (list NodeChange * Z)) (changes : list NodeChange)
    (handle : Z) (st : AppState) (tm : SaveTimers) (G : Z) :
  debounced tm → (∀ c, c ∈ burst → c.2 ≠ 0) → handle ≠ 0 →
  selectedGraphId st = Some G → G ≠ 0 →
  let all := (burst ++ [(changes, handle)])%list in
  let s1 := canvas_run ((λ c, NodesChanged c.1 c.2) <$> all) (st, tm) in
  let final := after_changes all (rfNodes st) in
  let s2 := timeout_fires handle s1.1 s1.2 in
  rfNodes s1.1 = final
  ∧ localStorage s1.1 = localStorage st
  ∧ pending s1.2 = {[ handle := Some G ]}
  ∧ localStorage s2.1
    = <[posKey G := JSON_stringify (positions_of final)]> (localStorage st)
  ∧ rfNodes s2.1 = final ∧ pending s2.2 = ∅
  ∧ (∀ c, c ∈ burst → c.2 ≠ handle →
          timeout_fires c.2 s1.1 s1.2 = (s1.1, s1.2))
  ∧ (∀ id, is_Some (positions_of final !! id) ↔ id ∈ rf_id <$> final)
  ∧ (∀ i r, final !! i = Some r →
       (∀ j r', (i < j)%nat → final !! j = Some r' → rf_id r' ≠ rf_id r) →
       positions_of final !! rf_id r = Some (position r)).
Proof.
  intros Hdeb Hnz Hh Hsel HG all s1 final s2.
  destruct (canvas_run_burst all st tm Hdeb) as (Hst & _ & Htm).
  { intros c [Hc|Hc]%elem_of_app; [by apply Hnz|].
    apply list_elem_of_singleton in Hc as ->. done. }
  specialize (Htm changes handle burst eq_refl).
  fold s1 in Hst, Htm. fold final in Hst.
  assert (Hs2 : s2 = (setLocalStorage
      (<[posKey G := JSON_stringify (positions_of final)]> (localStorage st)) s1.1,
      {| saveTimer := Some handle; pending := ∅ |})).
  { subst s2. unfold timeout_fires. rewrite Htm. cbn [pending saveTimer].
    rewrite lookup_singleton_eq, Hsel, delete_singleton_eq. f_equal.
    rewrite Hst.
    rewrite (persistPositions_selected _ _ G) by done. done. }
  rewrite Hs2, Htm, Hst. cbn [fst snd pending rfNodes localStorage setRfNodes setLocalStorage].
  rewrite Hsel.
  do 6 (split; [done|]).
  split.
  { intros c Hc Hne. unfold timeout_fires. cbn [pending].
    by rewrite lookup_singleton_ne. }
  split.
  - intros id. apply positions_of_dom.
  - intros i r. apply positions_of_lookup_last.
Qed.

(** ** Double click on an edge *)

(** X28.  A double click on a canvas edge whose id is not a number (a
    provisional edge) changes nothing.  Otherwise every edge of [edges]
    with that numeric id takes the next type, every canvas edge with the
    clicked id takes the stroke of that next type (width 2.5, opacity
    kept), and all other edges stay in place: canvas and collection agree
    on the colour of the clicked edge.  The change is kept also when the
    backend does not accept it - no token, a rejected request or a status
    that is not a success - and exactly then the banner says so. *)
Theorem onEdgeDoubleClick_updates_view_and_model `{Canvas} (rfEdge : RFEdge)
    (PUT_reply : Settled (Response unit)) (st : AppState) :
  let st' := onEdgeDoubleClick rfEdge PUT_reply st in
  (Number_ (rfe_id rfEdge) = None → st' = st)
  ∧ (∀ id, Number_ (rfe_id rfEdge) = Some id →
       let nextType := nextEdgeType (currentType id (edges st)) in
       (∀ i e, edges st !! i = Some e →
          edges st' !! i
          = Some (if edge_id e =? id then with_edge_type nextType e else e))
       ∧ (∀ i r, rfEdges st !! i = Some r →
            rfEdges st' !! i
            = Some (if bool_decide (rfe_id r = rfe_id rfEdge)
                    then with_stroke nextType r else r))
       ∧ (∀ e r, e ∈ edges st' → edge_id e = id →
            r ∈ rfEdges st' → rfe_id r = rfe_id rfEdge →
            stroke (style r) = edgeStroke (edge_type e))
       ∧ length (edges st') = length (edges st)
       ∧ nodes st' = nodes st
       ∧ error st'
         = (if updateEdgeBackend PUT_reply st then error st
            else Some edge_update_refused))
  ∧ (updateEdgeBackend PUT_reply st = true ↔
     (truthy_str (authToken st) = true
      ∧ ∃ res, PUT_reply = Fulfilled res ∧ ok res = true)).
Proof.
  intros st'. subst st'. unfold onEdgeDoubleClick. split; [by intros ->|]. split.
  - intros id ->. set (nextType := nextEdgeType (currentType id (edges st))).
    set (upd := updateEdgeBackend PUT_reply st).
    assert (He : ∀ s, edges (if upd then s else setError (Some edge_update_refused) s) = edges s)
      by (intros; by destruct upd).
    assert (Hr : ∀ s, rfEdges (if upd then s else setError (Some edge_update_refused) s) = rfEdges s)
      by (intros; by destruct upd).
    rewrite He, Hr. cbn [edges rfEdges setRfEdges setEdges].
    unfold onEdgeDoubleClick_edges. fold nextType.
    split; [|split; [|split; [|split; [|split]]]].
    + intros i e Hi. by rewrite list_lookup_fmap, Hi.
    + intros i r Hi. by rewrite list_lookup_fmap, Hi.
    + intros e r (e0 & -> & He0)%list_elem_of_fmap Hid
        (r0 & -> & Hr0)%list_elem_of_fmap Hrid.
      assert (Hmatch : (edge_id e0 =? id) = true).
      { destruct (edge_id e0 =? id) eqn:Heq; [done|].
        apply Z.eqb_neq in Heq. done. }
      rewrite Hmatch.
      assert (Hrm : bool_decide (rfe_id r0 = rfe_id rfEdge) = true).
      { apply bool_decide_eq_true. case_bool_decide; [done|]. done. }
      rewrite Hrm. done.
    + by rewrite length_fmap.
    + by destruct upd.
    + by destruct upd.
  - unfold updateEdgeBackend.
    destruct (truthy_str (authToken st)); cbn [negb].
    + destruct PUT_reply as [res|]; cbn [await].
      * split; [intros Hok; split; [done|by exists res]|].
        by intros [_ (res' & [= <-] & Hok)].
      * split; [done|]. by intros [_ (res' & Hres & _)].
    + split; [done|]. by intros [? _].
Qed.

(** ** Instances of the further properties *)

Lemma token_round_trip_witness :
  getToken (setToken (Some "abc") ∅) = Some "abc"
  ∧ setToken None {[ posKey 1 := "kept" ]} !! posKey 1 = Some "kept".
Proof.
  split.
  - exact (proj1 (token_round_trip (Some "abc") ∅)).
  - rewrite (proj2 (token_round_trip None {[ posKey 1 := "kept" ]}) (posKey 1))
      by (vm_compute; discriminate).
    vm_compute. reflexivity.
Defined.

Lemma positions_isolated_witness :
  loadPositions (H := test_platform)
    (savePositions (H := test_platform) 1 sample_positions ∅) 2
  = loadPositions (H := test_platform) ∅ 2.
Proof.
  exact (proj1 (positions_isolated (H := test_platform) ∅ 1 2 sample_positions
                  None dark ltac:(discriminate))).
Defined.

Lemma theme_round_trip_witness :
  initialTheme (storeTheme dark ∅) = dark ∧ initialTheme ∅ = light.
Proof.
  destruct (theme_round_trip dark None ∅) as (Hdark & _ & Hother & _).
  split; [exact Hdark|]. apply Hother. vm_compute. discriminate.
Defined.

Lemma deleteEdgesById_prunes_witness :
  deleteEdgesById (λ _, Fulfilled (response_of 404 Rejected)) [1] sample_state
  = (Normal (), setEdges [E2; E3] sample_state).
Proof.
  apply (proj1 (deleteEdgesById_prunes
                  (λ _, Fulfilled (response_of 404 Rejected)) [1] sample_state)).
  repeat constructor.
Defined.

Lemma onKeyDown_deletes_selection_witness :
  onKeyDown (λ _, Fulfilled (response_of 204 Rejected))
    (λ _, Fulfilled (response_of 500 Rejected)) delete_key
    sample_state sample_selection
  = (setNodes [Armbar; Armdrag; Sweep] (setEdges [] sample_state),
     {| selectedNodeIds := []; selectedEdgeIds := [] |}).
Proof.
  apply (onKeyDown_deletes_selection
           (λ _, Fulfilled (response_of 204 Rejected))
           (λ _, Fulfilled (response_of 500 Rejected)) delete_key
           sample_state sample_selection).
  - reflexivity.
  - repeat constructor.
  - repeat constructor.
Defined.

Lemma onKeyDown_rejected_request_witness :
  onKeyDown (λ _, Fulfilled (response_of 204 Rejected)) (λ _, Rejected)
    delete_key sample_state sample_selection
  = (setError (Some "Failed to delete selection")
       (setEdges [E1; E2] sample_state),
     {| selectedNodeIds := [2]; selectedEdgeIds := [] |}).
Proof.
  apply (proj2 (onKeyDown_rejected_request
                  (λ _, Fulfilled (response_of 204 Rejected)) (λ _, Rejected)
                  delete_key sample_state sample_selection eq_refl)).
  - repeat constructor.
  - apply Exists_cons_hd. reflexivity.
Defined.

Lemma onKeyDown_ignored_witness :
  onKeyDown (λ _, Rejected) (λ _, Rejected)
    {| ev_key := "Backspace"; ev_target := Some input_element |}
    sample_state sample_selection
  = (sample_state, sample_selection).
Proof.
  apply onKeyDown_ignored. left. exists input_element.
  split; [reflexivity|]. left. reflexivity.
Defined.

Lemma saveTechniqueDraft_update_or_create_witness :
  (saveTechniqueDraft (λ _, Fulfilled (response_of 404 Rejected)) 5 sample_draft).2
  = [ {| req_method := PUT; req_node := 5;
         req_video_url := "https://x"; req_steps := "1) grip" |};
      {| req_method := POST; req_node := 5;
         req_video_url := "https://x"; req_steps := "1) grip" |} ].
Proof.
  destruct (saveTechniqueDraft_update_or_create
              (λ _, Fulfilled (response_of 404 Rejected)) 5 sample_draft)
    as (_ & _ & Hcreate).
  apply Hcreate. eexists. split; reflexivity.
Defined.

Lemma rebuildView_highlights_matches_witness :
  ∃ r, rfNodes (rebuildView (H := test_platform) sample_state) !! 1%nat = Some r
       ∧ rf_id r = "2" ∧ dimmed (data r) = true.
Proof.
  destruct (rebuildView_highlights_matches (H := test_platform) sample_state
              1 Kimura eq_refl eq_refl)
    as (r & Hr & Hid & _ & _ & Hdim & _).
  exists r. split; [exact Hr|]. split; [exact Hid|].
  apply Hdim. split.
  - vm_compute. discriminate.
  - vm_compute. discriminate.
Defined.

Lemma rebuildView_dims_edges_witness :
  ∃ r, rfEdges (rebuildView (H := test_platform) sample_state) !! 0%nat = Some r
       ∧ rfe_id r = "1" ∧ opacity (style r) = Some (15 # 100)%Q.
Proof.
  destruct (rebuildView_dims_edges (H := test_platform) sample_state
              0 E1 eq_refl eq_refl)
    as (r & Hr & Hid & _ & _ & _ & _ & _ & Hdim).
  exists r. split; [exact Hr|]. split; [exact Hid|].
  apply Hdim. split.
  - vm_compute. discriminate.
  - right. vm_compute. discriminate.
Defined.

Lemma rebuildView_without_matches_witness :
  matchingNodeIds (with_query "   " sample_state) = ∅.
Proof.
  exact (proj1 (rebuildView_without_matches (H := test_platform)
                  (with_query "   " sample_state)) eq_refl).
Defined.

Lemma searchResults_are_highlighted_witness :
  ∃ r, rfNodes (rebuildView (H := test_platform) sample_state) !! 2%nat = Some r
       ∧ rf_id r = "3" ∧ highlighted (data r) = true ∧ dimmed (data r) = false.
Proof.
  apply (searchResults_are_highlighted (H := test_platform) sample_state 2 Armdrag).
  - vm_compute. apply list_elem_of_further, list_elem_of_here.
  - reflexivity.
Defined.

Lemma rebuildView_positions_witness :
  ∃ r, rfNodes (rebuildView (H := test_platform) sample_state) !! 0%nat = Some r
       ∧ 80 ≤ x (position r) < 500 ∧ 80 ≤ y (position r) < 500.
Proof.
  destruct (rebuildView_positions (H := test_platform) sample_state ∅ 0 Armbar
              eq_refl eq_refl eq_refl) as (r & Hr & _ & Hrandom).
  exists r. split; [exact Hr|]. apply Hrandom.
  - reflexivity.
  - intros k. simpl. lia.
Defined.

Lemma positions_survive_rebuild_witness :
  ∃ r, rfNodes (rebuildView (H := test_platform)
                  (persistPositions (H := test_platform) [origin_node] sample_state))
         !! 0%nat = Some r
       ∧ position r = {| x := 200; y := 200 |}.
Proof.
  destruct (positions_survive_rebuild (H := test_platform) sample_state 1
              [origin_node] eq_refl ltac:(discriminate) eq_refl
              ltac:(vm_compute; discriminate)) as [Hstored _].
  apply (Hstored 0%nat Armbar); reflexivity.
Defined.

Lemma groupNodesCenter_no_overlap_witness :
  position (at_grid_cell 2 0 (sample_rf_node 1))
  ≠ position (at_grid_cell 2 2 (sample_rf_node 3)).
Proof.
  apply (groupNodesCenter_no_overlap (H := test_platform) sample_state 1 0 2
           (at_grid_cell 2 0 (sample_rf_node 1))
           (at_grid_cell 2 2 (sample_rf_node 3)));
    [reflexivity|discriminate|reflexivity|reflexivity|lia].
Defined.

Lemma groupNodesCenter_within_square_witness :
  200 ≤ x (position (at_grid_cell 2 2 (sample_rf_node 3))) ≤ 320.
Proof.
  destruct (groupNodesCenter_within_square (H := test_platform) sample_state 1 2
              (at_grid_cell 2 2 (sample_rf_node 3)) eq_refl ltac:(discriminate)
              eq_refl) as (Hx & _).
  exact Hx.
Defined.

Lemma onConnect_success_witness :
  edges (onConnect (H := test_platform) sample_connection
           (Fulfilled (created_response 201 E4)) replies_nodes_rejected sample_state)
  = [E1; E2; E3; E4].
Proof.
  exact (proj1 (onConnect_success (H := test_platform) sample_connection
                  (created_response 201 E4) E4 replies_nodes_rejected sample_state
                  eq_refl eq_refl eq_refl eq_refl eq_refl)).
Defined.

Lemma onConnect_network_error_witness :
  error (onConnect (H := test_platform) sample_connection Rejected
           replies_ok sample_state)
  = Some network_error_message.
Proof.
  rewrite (proj1 (onConnect_network_error (H := test_platform) sample_connection
                    Rejected replies_ok sample_state eq_refl eq_refl eq_refl
                    (or_introl eq_refl))).
  reflexivity.
Defined.

Lemma loadAll_success_witness :
  nodes (loadAll replies_ok sample_state) = [Armbar; Kimura]
  ∧ selectedGraphId (loadAll replies_ok sample_state) = Some 1.
Proof.
  destruct (proj1 (loadAll_success replies_ok sample_state _ _ _ _
                     eq_refl eq_refl eq_refl eq_refl) eq_refl)
    as (_ & _ & Hn & _ & _ & Hsel & _).
  split; [exact Hn|exact Hsel].
Defined.

Lemma createNode_outcome_witness :
  nodes (cr_state (createNode (H := test_platform_40) "  Armbar "
                     (Fulfilled (created_response 201 Armbar)) empty_graph_state))
  = [Armbar]
  ∧ nodes (cr_state (createNode (H := test_platform_40) "  Armbar "
                       (Fulfilled (response_of 422 (Fulfilled "bad")))
                       empty_graph_state))
    = [].
Proof.
  split.
  - destruct (createNode_outcome (H := test_platform_40) "  Armbar "
                (Fulfilled (created_response 201 Armbar)) empty_graph_state)
      as (_ & _ & Hok).
    exact (proj1 (Hok Armbar eq_refl eq_refl)).
  - destruct (createNode_outcome (H := test_platform_40) "  Armbar "
                (Fulfilled (response_of 422 (Fulfilled "bad"))) empty_graph_state)
      as (_ & Hfail & _).
    exact (proj1 (Hfail (or_intror eq_refl))).
Defined.

Lemma createNode_position_kept_witness :
  ∃ r, rfNodes (rebuildView (H := test_platform_40)
                  (cr_state (createNode (H := test_platform_40) "Armbar"
                               (Fulfilled (created_response 201 Armbar))
                               empty_graph_state)))
         !! 0%nat = Some r
       ∧ position r = {| x := 200; y := 200 |} ∧ rf_id r = "1".
Proof.
  apply (createNode_position_kept (H := test_platform_40) "Armbar"
           (Fulfilled (created_response 201 Armbar)) empty_graph_state
           Armbar 0 Armbar); try reflexivity.
  vm_compute. discriminate.
Defined.

Lemma createGraph_outcome_witness :
  selectedGraphId
    (cr_state (createGraph None " mount " (Fulfilled (created_response 201 new_graph))
                 sample_state))
  = Some 3.
Proof.
  destruct (createGraph_outcome None " mount "
              (Fulfilled (created_response 201 new_graph)) sample_state)
    as (_ & _ & _ & _ & Hok).
  destruct (Hok new_graph eq_refl eq_refl) as (_ & Hsel & _).
  exact Hsel.
Defined.

Lemma onGraphChange_fresh_view_witness :
  graphNodes (onGraphChange 2 sample_state) = [Sweep]
  ∧ searchResults (onGraphChange 2 sample_state) = [].
Proof.
  destruct (onGraphChange_fresh_view (H := test_platform) 2 sample_state
              ltac:(discriminate)) as (Hn & Hs & _).
  split; [exact Hn|exact Hs].
Defined.

Lemma checkToken_outcome_witness :
  authToken (checkToken (Fulfilled (response_of 401 (Fulfilled "expired")))
               sample_state None).1
  = None.
Proof.
  destruct (checkToken_outcome (H := test_platform)
              (Fulfilled (response_of 401 (Fulfilled "expired")))
              sample_state None) as (_ & Hauth & _).
  destruct (Hauth eq_refl) as (Hbad & _).
  destruct (Hbad _ eq_refl eq_refl) as (_ & Htok & _).
  exact Htok.
Defined.

Lemma debounce_one_timer_witness :
  (size (pending (canvas_run (H := test_platform) (H0 := test_canvas)
                    [@NodesChanged test_canvas [("1", {| x := 5; y := 5 |})] 7;
                     @NodesChanged test_canvas [("1", {| x := 9; y := 9 |})] 8;
                     @TimeoutFired test_canvas 7]
                    (sample_state, no_timers)).2) ≤ 1)%nat.
Proof.
  apply (debounce_one_timer (H := test_platform) (H0 := test_canvas)).
  - intros h [c Hc]. vm_compute in Hc. discriminate.
  - intros changes handle Hin.
    apply elem_of_cons in Hin as [Hin|Hin]; [injection Hin as _ ->; discriminate|].
    apply elem_of_cons in Hin as [Hin|Hin]; [injection Hin as _ ->; discriminate|].
    apply elem_of_cons in Hin as [Hin|Hin]; [discriminate|].
    by apply elem_of_nil in Hin.
Defined.

Lemma debounce_collapses_burst_witness :
  localStorage
    (timeout_fires (H := test_platform) 8
       (canvas_run (H := test_platform) (H0 := test_canvas)
          [@NodesChanged test_canvas [("1", {| x := 5; y := 5 |})] 7;
           @NodesChanged test_canvas [("1", {| x := 9; y := 9 |})] 8]
          (sample_state, no_timers)).1
       (canvas_run (H := test_platform) (H0 := test_canvas)
          [@NodesChanged test_canvas [("1", {| x := 5; y := 5 |})] 7;
           @NodesChanged test_canvas [("1", {| x := 9; y := 9 |})] 8]
          (sample_state, no_timers)).2).1
  = <[posKey 1 :=
        JSON_stringify (Platform := test_platform)
          (positions_of
             (@after_changes test_canvas
                [([("1", {| x := 5; y := 5 |})], 7);
                 ([("1", {| x := 9; y := 9 |})], 8)]
                (rfNodes sample_state)))]> (localStorage sample_state).
Proof.
  destruct (@debounce_collapses_burst test_platform test_canvas
              [([("1", {| x := 5; y := 5 |})], 7)]
              [("1", {| x := 9; y := 9 |})] 8 sample_state no_timers 1)
    as (_ & _ & _ & Hwrite & _).
  - intros h [c Hc]. vm_compute in Hc. discriminate.
  - intros c Hc. apply list_elem_of_singleton in Hc as ->. discriminate.
  - discriminate.
  - reflexivity.
  - discriminate.
  - exact Hwrite.
Defined.

Lemma onEdgeDoubleClick_witness :
  edge_type <$> edges (onEdgeDoubleClick (H := test_canvas) rendered_E1 Rejected
                         state_with_canvas_edge)
  = [neutral; neutral; negative]
  ∧ error (onEdgeDoubleClick (H := test_canvas) rendered_E1 Rejected
              state_with_canvas_edge)
    = Some edge_update_refused.
Proof.
  destruct (onEdgeDoubleClick_updates_view_and_model (H := test_canvas)
              rendered_E1 Rejected state_with_canvas_edge) as (_ & Hnum & _).
  destruct (Hnum 1 eq_refl) as (_ & _ & _ & _ & _ & Herr).
  split; [reflexivity|exact Herr].
Defined.
